(** * TypespecAutomation: launch fixture, retry engine and ordered screenshots

    A shallow embedding of [src/common/utils.ts]: the [Screenshot]
    singleton ([setCreateType], [setDir], [screenShot], [save], [getDir]),
    the polling primitive [retry] and the vitest [launch] fixture, together
    with the JavaScript and Node.js library operations they call
    ([String.prototype.split], [lastIndexOf], [substring],
    [Array.prototype.sort], [path.join], [moment().format]).

    Asynchronous code is modelled sequentially: the harness runs on a single
    cooperative thread and every call in the embedded functions is awaited.
    Effects on the outside world (timers, the display, the file system, the
    host application) are recorded, in program order, in a trace of events;
    what the outside world answers (the time, the screen, whether the host
    starts) is read from oracles. A polled predicate and the start of the
    host may fail; the timer, the screen grab, the file system and
    [closeVscode] are taken to return normally.

    The file has the embedding first, then the vocabulary of the
    statements, then the theorems: the library models, the retry engine,
    the place of the ordinal in a path, the order of the flushed frames,
    the case directory, and the launch fixture. *)

From Stdlib Require Import ZArith List String Ascii Bool Lia.
From Stdlib Require Import Permutation Sorted DecimalString DecimalNat.
From Stdlib.Strings Require Import Byte.
From Equations Require Import Equations.
Import ListNotations.

Local Open Scope string_scope.
Local Open Scope Z_scope.

(* ===================================================================== *)
(** * JavaScript strings and arrays *)
(* ===================================================================== *)

Module Js.

(** [`${i}`] for a non-negative integer array index. *)
Definition string_of_index (i : nat) : string :=
  NilEmpty.string_of_uint (Nat.to_uint i).

Definition nonEmpty (s : string) : bool :=
  match s with EmptyString => false | String _ _ => true end.

(** [s.split(sep)] for a one-character separator: the pieces between the
    occurrences of [sep]; never the empty array. *)
Fixpoint split (sep : ascii) (s : string) : list string :=
  match s with
  | EmptyString => [EmptyString]
  | String c r =>
      if Ascii.eqb c sep then EmptyString :: split sep r
      else match split sep r with
           | h :: t => String c h :: t
           | [] => [String c EmptyString]
           end
  end.

(** [s.lastIndexOf(c)]: the greatest index holding [c], or [-1]. *)
Fixpoint lastIndexOf (c : ascii) (s : string) : Z :=
  match s with
  | EmptyString => -1
  | String a r =>
      let k := lastIndexOf c r in
      if 0 <=? k then k + 1
      else if Ascii.eqb a c then 0 else -1
  end.

Definition clamp (len : nat) (i : Z) : nat :=
  Nat.min (Z.to_nat i) len.

(** [s.substring(start, end)]: both indices are clamped to [0, length]
    and swapped when [start > end]. *)
Definition substring2 (s : string) (start stop : Z) : string :=
  let a := clamp (String.length s) start in
  let b := clamp (String.length s) stop in
  String.substring (Nat.min a b) (Nat.max a b - Nat.min a b) s.

(** [s.substring(start)]. *)
Definition substring1 (s : string) (start : Z) : string :=
  substring2 s start (Z.of_nat (String.length s)).

(** [arr[arr.length - 1]] of a non-empty array ([undefined] does not
    arise: [split] never returns the empty array). *)
Definition lastItem (arr : list string) : string := List.last arr EmptyString.

(** [arr[arr.length - 1] = v] on a non-empty array. *)
Fixpoint setLastItem (arr : list string) (v : string) : list string :=
  match arr with
  | [] => []
  | [_] => [v]
  | x :: r => x :: setLastItem r v
  end.

Section Sort.
Context {A : Type} (comparefn : A -> A -> Z).

(** Insertion of [x] in front of the first element that does not
    compare below it. *)
Fixpoint insert (x : A) (l : list A) : list A :=
  match l with
  | [] => [x]
  | y :: r => if comparefn x y <=? 0 then x :: y :: r else y :: insert x r
  end.

(** [arr.sort(comparefn)]. ECMAScript (2019 and later) requires the
    sort to be stable; for a consistent comparator every stable sort
    returns the same array, given here by stable insertion. *)
Fixpoint sort (l : list A) : list A :=
  match l with
  | [] => []
  | x :: r => insert x (sort r)
  end.
End Sort.

End Js.

(* ===================================================================== *)
(** * Node.js [path.join] *)
(* ===================================================================== *)

(** A model of [path.posix.join] and [path.win32.join] of Node.js (module
    [lib/path.js]): the non-empty arguments are glued with the platform
    separator and the result is normalised. *)
Module NodePath.

Definition isPosixPathSeparator (c : ascii) : bool := Ascii.eqb c "/".

Definition isPathSeparator (c : ascii) : bool :=
  Ascii.eqb c "/" || Ascii.eqb c "\".

Definition isWindowsDeviceRoot (c : ascii) : bool :=
  let n := nat_of_ascii c in
  ((65 <=? n) && (n <=? 90) || (97 <=? n) && (n <=? 122))%nat.

(** The pieces of [s] between separator characters. *)
Fixpoint segments (isSep : ascii -> bool) (s : string) : list string :=
  match s with
  | EmptyString => [EmptyString]
  | String c r =>
      if isSep c then EmptyString :: segments isSep r
      else match segments isSep r with
           | h :: t => String c h :: t
           | [] => [String c EmptyString]
           end
  end.

(** One step of [normalizeString]: [res] is the stack of segments kept so
    far, innermost first. Empty and ["."] segments are dropped; [".."]
    removes the previous segment unless there is none or it is itself
    [".."], in which case it is kept only when [allowAboveRoot]. *)
Definition normalizeStep (allowAboveRoot : bool) (res : list string)
    (seg : string) : list string :=
  if String.eqb seg "" || String.eqb seg "." then res
  else if String.eqb seg ".." then
    match res with
    | prev :: rest =>
        if String.eqb prev ".." then
          (if allowAboveRoot then ".." :: res else res)
        else rest
    | [] => if allowAboveRoot then [".."] else []
    end
  else seg :: res.

Definition normalizeString (path : string) (allowAboveRoot : bool)
    (separator : string) (isSep : ascii -> bool) : string :=
  String.concat separator
    (rev (fold_left (normalizeStep allowAboveRoot) (segments isSep path) [])).

Definition firstChar (s : string) : option ascii :=
  match s with EmptyString => None | String c _ => Some c end.

Fixpoint lastChar (s : string) : option ascii :=
  match s with
  | EmptyString => None
  | String c EmptyString => Some c
  | String _ r => lastChar r
  end.

Definition charIs (p : ascii -> bool) (o : option ascii) : bool :=
  match o with Some c => p c | None => false end.

Definition posix_normalize (path : string) : string :=
  if String.eqb path "" then "." else
  let isAbsolute := charIs isPosixPathSeparator (firstChar path) in
  let trailingSeparator := charIs isPosixPathSeparator (lastChar path) in
  let p := normalizeString path (negb isAbsolute) "/" isPosixPathSeparator in
  if String.eqb p "" then
    (if isAbsolute then "/" else if trailingSeparator then "./" else ".")
  else
    let p := if trailingSeparator then p ++ "/" else p in
    if isAbsolute then "/" ++ p else p.

Definition posix_join (args : list string) : string :=
  match filter Js.nonEmpty args with
  | [] => "."
  | parts => posix_normalize (String.concat "/" parts)
  end.

(** The longest prefix of characters satisfying [p], and the rest. *)
Fixpoint span (p : ascii -> bool) (s : string) : string * string :=
  match s with
  | EmptyString => (EmptyString, EmptyString)
  | String c r =>
      if p c then let (a, b) := span p r in (String c a, b)
      else (EmptyString, s)
  end.

Definition notSep (c : ascii) : bool := negb (isPathSeparator c).

(** The root of a Windows path: [BareUnc res] when the whole path is a
    bare UNC root, whose normal form is [res]; otherwise the device (a
    drive or a UNC share), whether the path is absolute, and the part
    after the root. *)
Inductive Win32Root :=
| BareUnc (res : string)
| Rooted (device : option string) (isAbsolute : bool) (afterRoot : string).

Definition win32_root (path : string) : Win32Root :=
  match path with
  | String c0 (String c1 r2 as r1) =>
      if isPathSeparator c0 then
        if isPathSeparator c1 then
          let (firstPart, t1) := span notSep r2 in
          if Js.nonEmpty t1 && Js.nonEmpty firstPart then
            let (_, t2) := span isPathSeparator t1 in
            if Js.nonEmpty t2 then
              let (share, t3) := span notSep t2 in
              if Js.nonEmpty t3 then
                Rooted (Some ("\\" ++ firstPart ++ "\" ++ share)) true t3
              else BareUnc ("\\" ++ firstPart ++ "\" ++ share ++ "\")
            else Rooted None true path
          else Rooted None true path
        else Rooted None true r1
      else if isWindowsDeviceRoot c0 && Ascii.eqb c1 ":" then
        let device := String c0 (String c1 EmptyString) in
        match r2 with
        | String c2 r3 =>
            if isPathSeparator c2 then Rooted (Some device) true r3
            else Rooted (Some device) false r2
        | EmptyString => Rooted (Some device) false r2
        end
      else Rooted None false path
  | _ => Rooted None false path
  end.

Definition win32_normalize (path : string) : string :=
  match path with
  | EmptyString => "."
  | String c EmptyString => if isPosixPathSeparator c then "\" else path
  | _ =>
      match win32_root path with
      | BareUnc res => res
      | Rooted device isAbsolute afterRoot =>
          let tail :=
            if Js.nonEmpty afterRoot
            then normalizeString afterRoot (negb isAbsolute) "\" isPathSeparator
            else "" in
          let tail :=
            if negb (Js.nonEmpty tail) && negb isAbsolute then "." else tail in
          let tail :=
            if Js.nonEmpty tail && charIs isPathSeparator (lastChar path)
            then tail ++ "\" else tail in
          match device with
          | None => if isAbsolute then "\" ++ tail else tail
          | Some d => if isAbsolute then d ++ "\" ++ tail else d ++ tail
          end
      end
  end.

(** Whether the first non-empty argument of [win32.join] is taken for a
    UNC path: exactly two leading separators followed by another
    character. *)
Definition uncFirstPart (firstPart : string) : bool :=
  match firstPart with
  | String c0 (String c1 (String c2 _)) =>
      isPathSeparator c0 && isPathSeparator c1 && negb (isPathSeparator c2)
  | _ => false
  end.

Definition win32_join (args : list string) : string :=
  match filter Js.nonEmpty args with
  | [] => "."
  | (firstPart :: _) as parts =>
      let joined := String.concat "\" parts in
      let joined :=
        if uncFirstPart firstPart then joined
        else
          let (slashes, rest) := span isPathSeparator joined in
          if (2 <=? String.length slashes)%nat then "\" ++ rest else joined in
      win32_normalize joined
  end.

End NodePath.

(* ===================================================================== *)
(** * Data model *)
(* ===================================================================== *)

(** A Node.js [Buffer]: the bytes of one screen image. *)
Definition Buffer := list byte.

(** One entry of [Screenshot.fileList]. [date] is [+new Date()], the epoch
    time in milliseconds. *)
Record Frame := mkFrame {
  fullPath : string;
  buffer : Buffer;
  date : Z
}.

Inductive CreateType := create | emit | import | preview.

(** The private fields of [class Screenshot]. *)
Record Screenshot := mkScreenshot {
  createType : CreateType;
  currentDir : string;
  fileList : list Frame
}.

(** [new Screenshot()]. *)
Definition newScreenshot : Screenshot :=
  {| createType := create; currentDir := ""; fileList := [] |}.

Definition typeMenu (t : CreateType) : string :=
  match t with
  | create => "CreateTypeSpecProject"
  | emit => "EmitFromTypeSpec"
  | import => "ImportTypeSpecFromOpenAPI3"
  | preview => "PreviewAPIDocument"
  end.

(** [os.platform()]. *)
Inductive Platform := win32 | linux | darwin.

Definition isWin32 (p : Platform) : bool :=
  match p with win32 => true | _ => false end.

(** The options object handed to [_electron.launch]: [eo_envOverrides]
    lists, in order, the entries that [launch] lays over the inherited
    [process.env]. *)
Record ElectronOptions := mkElectronOptions {
  eo_executablePath : string;
  eo_envOverrides : list (string * string);
  eo_args : list string
}.

(** The effects of the harness on the outside world:
    - [EvSleep s]: [sleep(s)] waited [s] seconds;
    - [EvInvoke]: the polled [fn()] was called;
    - [EvGrab]: [screenshot()] read the display;
    - [EvMkdirParent p]: [fs.mkdirSync(path.dirname(p), {recursive: true})];
    - [EvWriteFile p b]: [fs.writeFileSync(p, b)] of a buffer;
    - [EvWriteText p t]: [fs.writeFileSync(p, t)] of a string;
    - [EvCloseVscode]: [closeVscode()];
    - [EvMkdtemp d]: [fs.promises.mkdtemp] made the directory [d];
    - [EvLaunch a o]: [_electron.launch(o)], for the application [a];
    - [EvFirstWindow a]: [a.firstWindow()];
    - [EvAppClose a]: [a.close()]. *)
Inductive Event :=
| EvSleep (seconds : Z)
| EvInvoke
| EvGrab
| EvMkdirParent (path : string)
| EvWriteFile (path : string) (data : Buffer)
| EvWriteText (path : string) (text : string)
| EvCloseVscode
| EvMkdtemp (dir : string)
| EvLaunch (app : nat) (options : ElectronOptions)
| EvFirstWindow (app : nat)
| EvAppClose (app : nat).

(** What the process finds around it: [os.platform()], the environment
    variable of the artifact root, [__dirname] of utils.ts, [path.resolve]
    (which depends on the working directory), [os.tmpdir()],
    [inject("executablePath")] and [process.env.PATH]. The wall clock
    ([clock], epoch milliseconds, with [utcOffset] minutes between local
    time and UTC), the display, the suffix chosen by [mkdtemp] and the
    failures of the host to start or to show a window are oracles indexed
    by the number of readings made so far: none of their answers is fixed,
    and the clock need not be monotonic. *)
Record Env := mkEnv {
  platform : Platform;
  BUILD_ARTIFACT_STAGING_DIRECTORY : option string;
  dirname__ : string;
  path_resolve : list string -> string;
  tmpdir : string;
  executablePath : string;
  env_PATH : option string;
  clock : nat -> Z;
  utcOffset : Z;
  display : nat -> Buffer;
  mkdtempSuffix : nat -> string;
  launchError : nat -> option string;
  windowError : nat -> option string
}.

Inductive Outcome (A : Type) :=
| Normal (a : A)
| Throw (message : string).
Arguments Normal {A} a.
Arguments Throw {A} message.

(** The state of a run: the [screenShot] singleton, the state [ui] of the
    page that polled predicates inspect, the events so far (oldest first),
    and the number of oracle readings made. *)
Record World (U : Type) := mkWorld {
  shot : Screenshot;
  ui : U;
  trace : list Event;
  tick : nat
}.
Arguments mkWorld {U}.
Arguments shot {U}.
Arguments ui {U}.
Arguments trace {U}.
Arguments tick {U}.

(** Computations of the harness: state passing with exceptions. *)
Definition M (U A : Type) : Type := World U -> Outcome A * World U.

Definition ret {U A} (a : A) : M U A := fun w => (Normal a, w).

Definition bind {U A B} (c : M U A) (k : A -> M U B) : M U B :=
  fun w =>
    match c w with
    | (Normal a, w') => k a w'
    | (Throw e, w') => (Throw e, w')
    end.

Definition throw {U A} (message : string) : M U A := fun w => (Throw message, w).

Declare Scope harness_scope.
Delimit Scope harness_scope with harness.
Notation "x <- c ;; k" := (bind c (fun x => k))
  (at level 61, c at next level, right associativity) : harness_scope.
Notation "c ;; k" := (bind c (fun _ => k))
  (at level 61, right associativity) : harness_scope.
Local Open Scope harness_scope.

(** A polled predicate [() => Promise<boolean>]: it inspects (and may
    change) the page, answers or throws. *)
Definition Predicate (U : Type) : Type := U -> Outcome bool * U.

Section Primitives.
Context {U : Type}.

Definition emitEvent (e : Event) : M U unit :=
  fun w => (Normal tt, mkWorld (shot w) (ui w) (trace w ++ [e]) (tick w)).

(** The index of the next oracle reading. *)
Definition nextTick : M U nat :=
  fun w => (Normal (tick w), mkWorld (shot w) (ui w) (trace w) (S (tick w))).

Definition getShot : M U Screenshot := fun w => (Normal (shot w), w).

Definition putShot (s : Screenshot) : M U unit :=
  fun w => (Normal tt, mkWorld s (ui w) (trace w) (tick w)).

(** [await fn()]. *)
Definition invoke (fn : Predicate U) : M U bool :=
  emitEvent EvInvoke ;;
  fun w =>
    let (r, u') := fn (ui w) in
    (r, mkWorld (shot w) u' (trace w) (tick w)).

(** [sleep(s)]: resolves after [s * 1000] milliseconds. *)
Definition sleep (s : Z) : M U unit := emitEvent (EvSleep s).

(** Modelled from the spec: [closeVscode()] of [commonSteps], a module that
    is not among the sources; the spec has [retry] force the teardown of
    the current Application Handle with it. The call is recorded as one
    event. *)
Definition closeVscode : M U unit := emitEvent EvCloseVscode.
End Primitives.

(* ===================================================================== *)
(** * [moment().format("_HH_mm_ss")] *)
(* ===================================================================== *)

Module Moment.

Definition digit (n : Z) : ascii := ascii_of_nat (48 + Z.to_nat n).

(** Two decimal digits, zero padded ([HH], [mm] and [ss]). *)
Definition pad2 (n : Z) : string :=
  String (digit (n / 10)) (String (digit (n mod 10)) EmptyString).

(** The second of the local day shown by the format. *)
Definition secondOfDay (localMillis : Z) : Z := (localMillis / 1000) mod 86400.

Definition hours (localMillis : Z) : Z := secondOfDay localMillis / 3600.
Definition minutes (localMillis : Z) : Z := (secondOfDay localMillis / 60) mod 60.
Definition seconds (localMillis : Z) : Z := secondOfDay localMillis mod 60.

(** [format("_HH_mm_ss")] of the moment at [localMillis] milliseconds of
    local time. *)
Definition format_HH_mm_ss (localMillis : Z) : string :=
  "_" ++ pad2 (hours localMillis) ++ "_" ++ pad2 (minutes localMillis)
      ++ "_" ++ pad2 (seconds localMillis).

End Moment.

(* ===================================================================== *)
(** * [class Screenshot], [retry] and the [launch] fixture *)
(* ===================================================================== *)

Section Harness.
Context {U : Type} (env : Env).

(** [+new Date()]. *)
Definition dateNow : M U Z :=
  k <- nextTick ;; ret (clock env k).

(** [moment()], as local milliseconds. *)
Definition momentNow : M U Z :=
  k <- nextTick ;; ret (clock env k + utcOffset env * 60000).

(** [await screenshot()] of screenshot-desktop, then [Buffer.from]. *)
Definition screenshotDesktop : M U Buffer :=
  emitEvent EvGrab ;;
  k <- nextTick ;; ret (display env k).

(** [path.join] of the running platform. *)
Definition path_join (args : list string) : string :=
  if isWin32 (platform env) then NodePath.win32_join args
  else NodePath.posix_join args.

(** ** Screenshot.setCreateType *)
Definition setCreateType (t : CreateType) : M U unit :=
  s <- getShot ;;
  putShot {| createType := t; currentDir := currentDir s;
             fileList := fileList s |}.

(** The body of the [for] loop of [save] up to the two writes: the
    segments of [fullPath] with the ordinal [i] put in front of the file
    name. *)
Definition prefixedItems (i : nat) (fullPath : string) : list string :=
  let fullPathItem := Js.split "\" fullPath in
  if isWin32 (platform env) then
    Js.setLastItem fullPathItem
      (Js.string_of_index i ++ "_" ++ Js.lastItem fullPathItem)
  else
    let lastslashIdx := Js.lastIndexOf "/" (Js.lastItem fullPathItem) in
    let fileName := Js.lastItem fullPathItem in
    if negb (lastslashIdx =? -1) then
      let prefix := Js.substring2 fileName 0 (lastslashIdx + 1) in
      let suffix := Js.substring1 fileName (lastslashIdx + 1) in
      Js.setLastItem fullPathItem
        (prefix ++ Js.string_of_index i ++ "_" ++ suffix)
    else
      Js.setLastItem fullPathItem (Js.string_of_index i ++ "_" ++ fileName).

(** [path.join(...fullPathItem)]: where frame [i] is written. *)
Definition prefixedPath (i : nat) (fullPath : string) : string :=
  path_join (prefixedItems i fullPath).

(** The iterations [i, i+1, ...] of the [for] loop of [save] over the
    remaining entries of the sorted [fileList]. *)
Fixpoint saveLoop (i : nat) (items : list Frame) : M U unit :=
  match items with
  | [] => ret tt
  | f :: rest =>
      emitEvent (EvMkdirParent (prefixedPath i (fullPath f))) ;;
      emitEvent (EvWriteFile (prefixedPath i (fullPath f)) (buffer f)) ;;
      saveLoop (S i) rest
  end.

(** ** Screenshot.save *)
Definition save : M U unit :=
  s <- getShot ;;
  if (List.length (fileList s) =? 0)%nat then ret tt
  else
    let sorted := Js.sort (fun a b => date a - date b) (fileList s) in
    putShot {| createType := createType s; currentDir := currentDir s;
               fileList := sorted |} ;;
    saveLoop 0 sorted.

(** [process.env.BUILD_ARTIFACT_STAGING_DIRECTORY ||
     path.resolve(__dirname, "../..")]: an unset or empty variable is
    falsy. *)
Definition rootDir : string :=
  match BUILD_ARTIFACT_STAGING_DIRECTORY env with
  | Some d => if Js.nonEmpty d then d
              else path_resolve env [dirname__ env; "../.."]
  | None => path_resolve env [dirname__ env; "../.."]
  end.

Definition platformDir : string :=
  if isWin32 (platform env) then "/images-windows" else "/images-linux".

(** ** Screenshot.screenShot *)
Definition screenShot (fileName : string) : M U unit :=
  sleep 3 ;;
  buffer <- screenshotDesktop ;;
  s <- getShot ;;
  let fullPath :=
    path_join [rootDir; platformDir; typeMenu (createType s);
               currentDir s; fileName] in
  date <- dateNow ;;
  putShot {| createType := createType s; currentDir := currentDir s;
             fileList := fileList s ++ [mkFrame fullPath buffer date] |}.

(** ** Screenshot.setDir *)
Definition setDir (dir : string) : M U unit :=
  now <- momentNow ;;
  s <- getShot ;;
  putShot {| createType := createType s;
             currentDir := dir ++ Moment.format_HH_mm_ss now;
             fileList := [] |}.

(** ** Screenshot.getDir *)
Definition getDir : M U string :=
  s <- getShot ;;
  ret (typeMenu (createType s) ++ "/" ++ currentDir s).

(** ** retry *)

Inductive LoopExit := Returned | Exhausted.

(** The [while (count > 0)] loop of [retry]: [Returned] when [fn]
    answered [true] (the [return] inside the loop), [Exhausted] when the
    loop condition failed; an error thrown by [fn] leaves the loop and
    [retry] at once. [count] is an integral attempt budget and [gap] a
    whole number of seconds, as at every call of [retry] in the
    repository. *)
Equations? retryLoop (count : Z) (fn : Predicate U) (gap : Z)
    (w : World U) : Outcome LoopExit * World U
    by wf (Z.to_nat count) lt :=
  retryLoop count fn gap w with Z_lt_dec 0 count := {
    | right _ => (Normal Exhausted, w)
    | left _ =>
        match (sleep gap ;; invoke fn) w with
        | (Normal true, w') => (Normal Returned, w')
        | (Normal false, w') => retryLoop (count - 1) fn gap w'
        | (Throw e, w') => (Throw e, w')
        end
    }.
Proof. lia. Qed.

(** The statements of [retry] after the loop. *)
Definition onExhausted (errMessage : string) : M U unit :=
  screenShot "error.png" ;;
  save ;;
  closeVscode ;;
  throw errMessage.

(** [retry(count, fn, errMessage, gap = 2)]; [None] is an omitted
    [gap]. *)
Definition retry (count : Z) (fn : Predicate U) (errMessage : string)
    (gap : option Z) : M U unit :=
  let gap := match gap with Some g => g | None => 2 end in
  r <- retryLoop count fn gap ;;
  match r with
  | Returned => ret tt
  | Exhausted => onExhausted errMessage
  end.

End Harness.

(* ===================================================================== *)
(** * The [test] fixtures *)
(* ===================================================================== *)

Inductive OnOff := on | off.

(** The argument of a [LaunchFixture]; [trace'] is its optional field
    [trace]. *)
Record LaunchOptions := mkLaunchOptions {
  extensionPath : option string;
  workspacePath : string;
  trace' : option OnOff
}.

(** [interface Context]; the page is named by the application that owns
    it. *)
Record Context := mkContext {
  page : nat;
  extensionDir : string
}.

Definition dquote : string := String "034"%char EmptyString.

(** [JSON.stringify] of the user-settings object written by [launch]. *)
Definition userSettingsJson : string :=
  "{" ++ dquote ++ "typespec.initTemplatesUrls" ++ dquote ++ ":[{"
      ++ dquote ++ "name" ++ dquote ++ ":" ++ dquote ++ "Azure" ++ dquote ++ ","
      ++ dquote ++ "url" ++ dquote ++ ":"
      ++ dquote ++ "https://aka.ms/typespec/azure-init" ++ dquote ++ "}]}".

Section Fixtures.
Context {U : Type} (env : Env).

(** [path.delimiter]. *)
Definition path_delimiter : string :=
  if isWin32 (platform env) then ";" else ":".

(** [await fs.promises.mkdtemp(prefix)]. *)
Definition mkdtemp (prefix : string) : M U string :=
  k <- nextTick ;;
  let dir := prefix ++ mkdtempSuffix env k in
  emitEvent (EvMkdtemp dir) ;;
  ret dir.

(** [await _electron.launch(options)]: the new application, or the
    driver's error. *)
Definition electronLaunch (options : ElectronOptions) : M U nat :=
  k <- nextTick ;;
  emitEvent (EvLaunch k options) ;;
  match launchError env k with
  | Some e => throw e
  | None => ret k
  end.

(** [await app.firstWindow()]. *)
Definition firstWindow (app : nat) : M U nat :=
  k <- nextTick ;;
  emitEvent (EvFirstWindow app) ;;
  match windowError env k with
  | Some e => throw e
  | None => ret app
  end.

(** The [taskName] fixture. *)
Definition taskName (name id : string) : string := name ++ "-" ++ id.

(** The [logPath] fixture. *)
Definition logPath (taskName : string) : string :=
  path_resolve env ["./tests-logs-" ++ taskName ++ ".txt"].

(** The function handed to [use] by the [launch] fixture. *)
Definition launch (logPath : string) (options : LaunchOptions)
    : M U Context :=
  let executablePath := executablePath env in
  let workspacePath := workspacePath options in
  let codePath := path_join env [executablePath; "../bin"] in
  let envOverrides :=
    [("PATH", codePath ++ path_delimiter
                ++ match env_PATH env with
                   | Some p => p
                   | None => "undefined"
                   end)] in
  tempDir <- mkdtemp (path_join env [tmpdir env; "typespec-automation"]) ;;
  app <- electronLaunch
    {| eo_executablePath := executablePath;
       eo_envOverrides :=
         envOverrides ++ [("VITEST_VSCODE_E2E_LOG_FILE", logPath);
                          ("VITEST_VSCODE_LOG", "verbose")];
       eo_args :=
         filter Js.nonEmpty
           ["--no-sandbox";
            "--disable-gpu-sandbox";
            "--disable-updates";
            "--skip-welcome";
            "--skip-release-notes";
            "--disable-workspace-trust";
            "--extensions-dir=" ++ path_resolve env [tempDir; "extensions"];
            "--user-data-dir=" ++ path_resolve env [tempDir; "user-data"];
            "--folder-uri=file:" ++ path_resolve env [workspacePath]] |} ;;
  page <- firstWindow app ;;
  let userSettingsPath :=
    path_join env [tempDir; "user-data"; "User"; "settings.json"] in
  emitEvent (EvWriteText userSettingsPath userSettingsJson) ;;
  ret {| page := page; extensionDir := path_join env [tempDir; "extensions"] |}.

(** [for (const teardown of teardowns) await teardown()]. *)
Fixpoint runTeardowns (teardowns : list (M U unit)) : M U unit :=
  match teardowns with
  | [] => ret tt
  | teardown :: rest => teardown ;; runTeardowns rest
  end.

(** The [launch] fixture run around a test body [use]. The array
    [teardowns] is created empty and no statement of the fixture writes to
    it, so the loop after [use] runs over the empty array. [use] resolves
    when the body has finished, whatever its outcome, which the fixture
    hands back once its own teardown is done. *)
Definition launchFixture {A} (logPath : string)
    (use : (LaunchOptions -> M U Context) -> M U A) : M U A :=
  let teardowns : list (M U unit) := [] in
  fun w =>
    let (r, w1) := use (launch logPath) w in
    match runTeardowns teardowns w1 with
    | (Normal _, w2) => (r, w2)
    | (Throw e, w2) => (Throw e, w2)
    end.

End Fixtures.

(* ===================================================================== *)
(** * The steps of [createSteps.ts] *)
(* ===================================================================== *)

(** The regular expressions of [createSteps.ts] are anchored literals
    without metacharacters; [replace] with one of them and the empty
    string removes the literal at that end of the string, when it is
    there. *)
Module JsText.

(** [s.startsWith(lit)]: whether [/^lit/] matches. *)
Fixpoint startsWith (lit s : string) : bool :=
  match lit, s with
  | EmptyString, _ => true
  | String a l, String b r => Ascii.eqb a b && startsWith l r
  | String _ _, EmptyString => false
  end.

(** [s.slice(n)] for [n >= 0]: empty when [n] is past the end. *)
Definition slice (s : string) (n : nat) : string :=
  String.substring n (String.length s - n) s.

(** [s.endsWith(lit)]: whether [/lit$/] matches. *)
Definition endsWith (lit s : string) : bool :=
  (String.length lit <=? String.length s)%nat
  && String.eqb (slice s (String.length s - String.length lit)) lit.

(** [s.replace(/^lit/, "")]. *)
Definition removePrefix (lit s : string) : string :=
  if startsWith lit s then slice s (String.length lit) else s.

(** [s.replace(/lit$/, "")]. *)
Definition removeSuffix (lit s : string) : string :=
  if endsWith lit s
  then String.substring 0 (String.length s - String.length lit) s
  else s.

End JsText.

(** A Playwright locator, as the steps build them:
    - [Css sel]: [page.locator(sel)];
    - [HasText l t]: [l.filter({ hasText: t })];
    - [ByRole r n]: [page.getByRole(r, { name: n })];
    - [ByLabel t]: [page.getByLabel(t)];
    - [Sub l sel]: [l.locator(sel)];
    - [Nth l n]: [l.nth(n)];
    - [First l]: [l.first()]. *)
Inductive Locator :=
| Css (selector : string)
| HasText (l : Locator) (text : string)
| ByRole (role name : string)
| ByLabel (text : string)
| Sub (l : Locator) (selector : string)
| Nth (l : Locator) (n : nat)
| First (l : Locator).

(** One entry of [emittersConfig]. *)
Record Emitter := mkEmitter {
  name : string;
  description : string
}.

(** The Playwright page the steps drive, over the page state [U]: every
    call reads or changes the page, answers or rejects. [emitter_reads]
    stands for the reads that the polled function of [selectEmitters] makes
    for all emitters at once under [Promise.all], taken as one observation
    of the page: it gives, for each emitter, the [count()] of its name
    link and the [textContent()] of its checkbox. What [console.error]
    prints is not modelled. *)
Record Driver (U : Type) := mkDriver {
  locator_count : Locator -> U -> Outcome nat * U;
  locator_textContent : Locator -> U -> Outcome (option string) * U;
  locator_allTextContents : Locator -> U -> Outcome (list string) * U;
  locator_click : Locator -> U -> Outcome unit * U;
  locator_check : Locator -> U -> Outcome unit * U;
  keyboard_press : string -> U -> Outcome unit * U;
  emitter_reads : U -> Outcome (Emitter -> nat * option string) * U
}.
Arguments locator_count {U}.
Arguments locator_textContent {U}.
Arguments locator_allTextContents {U}.
Arguments locator_click {U}.
Arguments locator_check {U}.
Arguments keyboard_press {U}.
Arguments emitter_reads {U}.

Definition emittersConfig : list Emitter :=
  [ {| name := "OpenAPI 3.1 document"; description := "@typespec/openapi3" |};
    {| name := "C# client"; description := "@typespec/http-client-csharp" |};
    {| name := "Java client"; description := "@typespec/http-client-java" |};
    {| name := "JavaScript client"; description := "@typespec/http-client-js" |};
    {| name := "Python client"; description := "@typespec/http-client-python" |};
    {| name := "C# server stubs"; description := "@typespec/http-server-csharp" |};
    {| name := "JavaScript server stubs";
       description := "@typespec/http-server-js" |} ].

(** The description read off the text of an emitter's checkbox: the text
    without its first [name.length] characters and without the noise that
    may follow the package name; [undefined] ([None]) when there is no text
    or nothing is left of it. *)
Definition nameDescription (emitter : Emitter)
    (nameBoxLocatorText : option string) : option string :=
  match nameBoxLocatorText with
  | None => None
  | Some text =>
      let sliced := JsText.slice text (String.length (name emitter)) in
      if Js.nonEmpty sliced then
        Some (JsText.removeSuffix "similar commands"
                (JsText.removeSuffix "Settings"
                   (JsText.removeSuffix "Azure" sliced)))
      else None
  end.

(** What the function mapped over [emittersConfig] returns for one
    emitter, from the two values it awaited. *)
Definition emitterCheck (emitter : Emitter) (nameCount : nat)
    (nameBoxLocatorText : option string) : bool :=
  let nameExists := (0 <? nameCount)%nat in
  if negb nameExists then false
  else
    match nameDescription emitter nameBoxLocatorText with
    | Some d => String.eqb d (description emitter)
    | None => false
    end.

(** [checks.every((result) => result)], from what was read for each
    emitter of [emittersConfig]. *)
Definition everyCheck (reads : Emitter -> nat * option string) : bool :=
  forallb (fun e => emitterCheck e (fst (reads e)) (snd (reads e)))
          emittersConfig.

(** The text of a title box without the noise around the prompt, [null]
    ([None]) when the box has no text. *)
Definition promptText (titleBoxText : option string) : option string :=
  match titleBoxText with
  | Some text =>
      if Js.nonEmpty text then
        Some (JsText.removeSuffix "OK"
                (JsText.removePrefix "0 Results0 Selected" text))
      else None
  | None => None
  end.

(** [titleBoxText === titleInfoDescription]. *)
Definition promptMatches (titleInfoDescription : string)
    (titleBoxText : option string) : bool :=
  match promptText titleBoxText with
  | Some t => String.eqb t titleInfoDescription
  | None => false
  end.

Section Steps.
Context {U : Type} (env : Env) (page : Driver U).

(** A call on the page, inside the harness. *)
Definition onPage {A} (call : U -> Outcome A * U) : M U A :=
  fun w =>
    let (r, u') := call (ui w) in
    (r, mkWorld (shot w) u' (trace w) (tick w)).

(** The polled function of [selectEmitters]. *)
Definition emittersShown : Predicate U :=
  fun u =>
    match emitter_reads page u with
    | (Normal reads, u') => (Normal (everyCheck reads), u')
    | (Throw e, u') => (Throw e, u')
    end.

(** ** selectEmitters *)
Definition selectEmitters (emitters : option (list string)) : M U unit :=
  retry env 3 emittersShown "Failed to find the selectEmitter box." None ;;
  onPage (locator_check page (ByRole "checkbox" "Toggle all checkboxes")) ;;
  screenShot env "select_emitter.png" ;;
  onPage (keyboard_press page "Enter").

(** The first polled function of [selectTemplate]. *)
Definition templateListed (templateName : string) : Predicate U :=
  fun u =>
    let templateListName := HasText (Css "a") templateName in
    match locator_count page templateListName u with
    | (Normal n, u') => (Normal (0 <? n)%nat, u')
    | (Throw e, u') => (Throw e, u')
    end.

(** The second polled function of [selectTemplate]. [arr[0].slice(...)] on
    an empty array is a [TypeError]. *)
Definition templateDescribed (templateName templateNameDesctiption : string)
    : Predicate U :=
  fun u =>
    let templateListBox := Sub (ByRole "option" templateName) "label" in
    match locator_allTextContents page templateListBox u with
    | (Normal templateListDescriptionArr, u') =>
        match templateListDescriptionArr with
        | [] =>
            (Throw
               "TypeError: Cannot read properties of undefined (reading 'slice')",
             u')
        | first :: _ =>
            let templateListDescription :=
              JsText.slice first (String.length templateName) in
            (Normal (String.eqb templateNameDesctiption templateListDescription),
             u')
        end
    | (Throw e, u') => (Throw e, u')
    end.

(** ** selectTemplate *)
Definition selectTemplate (templateName templateNameDesctiption : string)
    : M U unit :=
  retry env 3 (templateListed templateName)
    ("Failed to find the following template: " ++ dquote ++ templateName
       ++ dquote ++ ".") None ;;
  retry env 3 (templateDescribed templateName templateNameDesctiption)
    "Failed to find the selectTemplate box." None ;;
  onPage (locator_click page (First (HasText (Css "a") templateName))).

(** The polled function of the three input steps, which differ in
    [titleInfoDescription] only. *)
Definition titleShown (titleInfoDescription : string) : Predicate U :=
  fun u =>
    let titleBox := Nth (HasText (Css "div") "0 Results0 SelectedPlease") 2 in
    match locator_textContent page titleBox u with
    | (Normal titleBoxText, u') =>
        (Normal (promptMatches titleInfoDescription titleBoxText), u')
    | (Throw e, u') => (Throw e, u')
    end.

Definition projectNamePrompt : string :=
  "Please input the project name (Press 'Enter' to confirm or 'Escape' to cancel)".

(** ** inputProjectName *)
Definition inputProjectName : M U unit :=
  retry env 3 (titleShown projectNamePrompt)
    "Failed to find the project name input box." None ;;
  screenShot env "input_project_name.png" ;;
  onPage (keyboard_press page "Enter").

Definition serviceNameSpacePrompt : string :=
  "Please provide service namespace in Pascal case: (Press 'Enter' to confirm or 'Escape' to cancel)".

(** ** inputServiceNameSpace *)
Definition inputServiceNameSpace : M U unit :=
  retry env 3 (titleShown serviceNameSpacePrompt)
    "Failed to find the service namespace input box." None ;;
  screenShot env "input_service_namespace.png" ;;
  onPage (keyboard_press page "Enter").

Definition armResourceProviderPrompt : string :=
  "Please provide ARM Resource Provider Name in Pascal case, excluding the 'Microsoft.' prefix: (Press 'Enter' to confirm or 'Escape' to cancel)".

(** ** inputARMResourceProviderName *)
Definition inputARMResourceProviderName : M U unit :=
  retry env 3 (titleShown armResourceProviderPrompt)
    "Failed to find the ARM Resource Provider name input box." None ;;
  screenShot env "input_ARM_Resource_name.png" ;;
  onPage (keyboard_press page "Enter").

(** ** startWithClick *)
Definition startWithClick : M U unit :=
  screenShot env "start_with_click.png" ;;
  onPage (locator_click page (Nth (ByLabel "Explorer (Ctrl+Shift+E) - 1") 2)) ;;
  screenShot env "open_tabs.png" ;;
  onPage (locator_click page (ByRole "button" "Create TypeSpec Project")).

End Steps.

(* ===================================================================== *)
(** * The test of [createTypespec.test.ts] *)
(* ===================================================================== *)

(** One entry of [CreateCasesConfigList], as the test reads it.
    [triggeredByCommand] is
    [triggerType === CreateProjectTriggerType.Command]. *)
Record CreateCase := mkCreateCase {
  caseName : string;
  triggeredByCommand : bool;
  templateName : string;
  templateNameDescription : string;
  isEmptyFolder : bool;
  expectedResults : list string
}.

(** The steps that the test imports from [commonSteps], a module that is
    not among the sources: each is taken as it comes, a computation of the
    harness that may do anything and may throw; a page argument is the
    page of the [Context]. ([closeVscode] is the one modelled above.) *)
Record CommonSteps (U : Type) := mkCommonSteps {
  contrastResult : list string -> string -> M U unit;
  startWithCommandPalette : nat -> string -> string -> M U unit;
  selectFolder : string -> M U unit;
  preContrastResult : nat -> string -> string -> list Z -> M U unit;
  installExtensionForCommand : nat -> string -> M U unit;
  createTestFile : string -> M U unit;
  deleteTestFile : string -> M U unit;
  notEmptyFolderContinue : nat -> M U unit
}.
Arguments contrastResult {U}.
Arguments startWithCommandPalette {U}.
Arguments selectFolder {U}.
Arguments preContrastResult {U}.
Arguments installExtensionForCommand {U}.
Arguments createTestFile {U}.
Arguments deleteTestFile {U}.
Arguments notEmptyFolderContinue {U}.

Section CreateTypespecTest.
Context {U : Type} (env : Env) (steps : CommonSteps U).

(** The Playwright calls on the page of the launched host. *)
Context (driver : Driver U).

(** [__dirname] of the test file. *)
Context (testDirname : string).

(** [try { body } finally { finalizer }]: the finalizer runs whatever the
    body's outcome, which is handed on unless the finalizer throws. *)
Definition tryFinally {A} (body : M U A) (finalizer : M U unit) : M U A :=
  fun w =>
    let (r, w1) := body w in
    match finalizer w1 with
    | (Normal _, w2) => (r, w2)
    | (Throw e, w2) => (Throw e, w2)
    end.

(** [if (cond) { step }]. *)
Definition when (cond : bool) (step : M U unit) : M U unit :=
  if cond then step else ret tt.

(** The [try] block of the test. *)
Definition createCaseBody (item : CreateCase)
    (launch : LaunchOptions -> M U Context) : M U unit :=
  let workspacePath :=
    path_resolve env [testDirname; "../../CreateTypespecProject"] in
  ctx <- launch {| extensionPath := None;
                   workspacePath :=
                     if triggeredByCommand item then workspacePath else "test";
                   trace' := None |} ;;
  let '(mkContext page extensionDir) := ctx in
  when (negb (isEmptyFolder item)) (createTestFile steps workspacePath) ;;
  installExtensionForCommand steps page extensionDir ;;
  (if triggeredByCommand item
   then startWithCommandPalette steps page "CreateTypespecProject"
          "Create Typespec Project"
   else startWithClick env driver) ;;
  selectFolder steps (if triggeredByCommand item then "" else workspacePath) ;;
  when (negb (isEmptyFolder item))
    (notEmptyFolderContinue steps page ;;
     deleteTestFile steps workspacePath) ;;
  selectTemplate env driver (templateName item) (templateNameDescription item) ;;
  inputProjectName env driver ;;
  when (String.eqb (templateName item) "Generic Rest API")
    (selectEmitters env driver None) ;;
  preContrastResult steps page "Project created"
    "Failed to create project Successful" [20; 20] ;;
  closeVscode ;;
  contrastResult steps (expectedResults item) workspacePath.

(** The function given to [test.only(caseName, ...)]. *)
Definition createCase (item : CreateCase)
    (launch : LaunchOptions -> M U Context) : M U unit :=
  setDir env (caseName item) ;;
  tryFinally (createCaseBody item launch) (save env).

(** The test run inside its [launch] fixture. *)
Definition runCreateCase (logPath : string) (item : CreateCase) : M U unit :=
  launchFixture env logPath (createCase item).

End CreateTypespecTest.

(* ===================================================================== *)
(** * Vocabulary of the statements *)
(* ===================================================================== *)

(** ** Sorting by capture time *)

(** Comparison by an integer key, [(a, b) => key(a) - key(b)], and the
    order it sorts into. *)
Definition keyCompare {A} (key : A -> Z) : A -> A -> Z :=
  fun a b => key a - key b.

Definition keyLe {A} (key : A -> Z) : A -> A -> Prop :=
  fun a b => key a <= key b.

(** The comparator of [save]: [(a, b) => a.date - b.date]. *)
Definition byDate (a b : Frame) : Z := date a - date b.

Definition hasDate (d : Z) (f : Frame) : bool := date f =? d.

(** Ascending capture time. *)
Definition ascending : list Frame -> Prop :=
  StronglySorted (fun a b => date a <= date b).

(** ** What the operations leave behind *)

(** The events of the loop of [save] over [items], the first of which gets
    ordinal [i]: for each frame the directory creation and the write, at
    the path carrying the frame's ordinal. *)
Fixpoint saveEvents (env : Env) (i : nat) (items : list Frame) : list Event :=
  match items with
  | [] => []
  | f :: rest =>
      EvMkdirParent (prefixedPath env i (fullPath f))
      :: EvWriteFile (prefixedPath env i (fullPath f)) (buffer f)
      :: saveEvents env (S i) rest
  end.

(** The world left by [save]: the buffer sorted in place, one directory
    creation and one write per frame appended to the trace. *)
Definition saved {U} (env : Env) (w : World U) : World U :=
  let sorted := Js.sort byDate (fileList (shot w)) in
  mkWorld {| createType := createType (shot w);
             currentDir := currentDir (shot w);
             fileList := sorted |}
          (ui w) (trace w ++ saveEvents env 0 sorted) (tick w).

(** The frame pushed by [screenShot(fileName)] when called in [w]. *)
Definition capturedFrame {U} (env : Env) (fileName : string) (w : World U)
    : Frame :=
  {| fullPath :=
       path_join env [rootDir env; platformDir env;
                      typeMenu (createType (shot w)); currentDir (shot w);
                      fileName];
     buffer := display env (tick w);
     date := clock env (S (tick w)) |}.

(** The world left by [screenShot(fileName)]. *)
Definition captured {U} (env : Env) (fileName : string) (w : World U)
    : World U :=
  mkWorld {| createType := createType (shot w);
             currentDir := currentDir (shot w);
             fileList := fileList (shot w) ++ [capturedFrame env fileName w] |}
          (ui w) (trace w ++ [EvSleep 3; EvGrab]) (S (S (tick w))).

(** The local time, in milliseconds, that [moment()] reads in [w]. *)
Definition momentAt {U} (env : Env) (w : World U) : Z :=
  clock env (tick w) + utcOffset env * 60000.

(** The directory made by [mkdtemp] when [launch] starts in [w]. *)
Definition tempDirAt {U} (env : Env) (w : World U) : string :=
  path_join env [tmpdir env; "typespec-automation"]
  ++ mkdtempSuffix env (tick w).

(** ** The polling loop *)

(** The interval of [retry]: the argument, or the default of 2 seconds. *)
Definition gapOf (gap : option Z) : Z :=
  match gap with Some g => g | None => 2 end.

(** [n] attempts of the polling loop: a wait of [gap], then the call. *)
Definition attemptEvents (gap : Z) (n : nat) : list Event :=
  List.concat (repeat [EvSleep gap; EvInvoke] n).

(** The page after [n] calls of the predicate. *)
Fixpoint polled {U} (fn : Predicate U) (n : nat) (u : U) : U :=
  match n with
  | O => u
  | S k => polled fn k (snd (fn u))
  end.

(** The events of the statements of [retry] after its loop, entered in
    [w]: the capture, the flush of the buffer that now ends with the error
    frame, the teardown. *)
Definition exhaustionEvents {U} (env : Env) (w : World U) : list Event :=
  [EvSleep 3; EvGrab]
  ++ saveEvents env 0
       (Js.sort byDate (fileList (shot w) ++ [capturedFrame env "error.png" w]))
  ++ [EvCloseVscode].

(** ** Reading a trace *)

(** The number of calls of the polled predicate recorded in a trace. *)
Definition invocations (t : list Event) : nat :=
  List.length
    (filter (fun e => match e with EvInvoke => true | _ => false end) t).

(** The number of waits of exactly [gap] seconds recorded in a trace. *)
Definition waitsOf (gap : Z) (t : list Event) : nat :=
  List.length
    (filter (fun e => match e with EvSleep s => s =? gap | _ => false end) t).

Definition isLaunch (e : Event) : bool :=
  match e with EvLaunch _ _ => true | _ => false end.

Definition isFirstWindow (e : Event) : bool :=
  match e with EvFirstWindow _ => true | _ => false end.

Definition isSettingsWrite (e : Event) : bool :=
  match e with EvWriteText _ _ => true | _ => false end.

(** An event that closes the host: [app.close()] or [closeVscode()]. *)
Definition isClose (e : Event) : bool :=
  match e with EvAppClose _ | EvCloseVscode => true | _ => false end.

(** Some event satisfying [p] is followed, later in the trace, by one
    satisfying [q]. *)
Fixpoint occursBefore (p q : Event -> bool) (t : list Event) : bool :=
  match t with
  | [] => false
  | e :: r => (p e && existsb q r) || occursBefore p q r
  end.

(** ** The methods of the singleton, as calls *)

Inductive Op :=
| OpSetCreateType (t : CreateType)
| OpSave
| OpScreenShot (fileName : string)
| OpSetDir (dir : string)
| OpGetDir.

Definition runOp {U} (env : Env) (op : Op) : M U unit :=
  match op with
  | OpSetCreateType t => setCreateType t
  | OpSave => save env
  | OpScreenShot fileName => screenShot env fileName
  | OpSetDir dir => setDir env dir
  | OpGetDir => (_ <- getDir ;; ret tt)%harness
  end.

(** ** Concrete runs, for the examples *)

(** A Linux build agent with the given wall clock and host start-up. *)
Definition linuxAgentWith (clock : nat -> Z)
    (launchError : nat -> option string) : Env :=
  {| platform := linux;
     BUILD_ARTIFACT_STAGING_DIRECTORY := Some "/artifacts";
     dirname__ := "/repo/src/common";
     path_resolve := NodePath.posix_join;
     tmpdir := "/tmp";
     executablePath := "/opt/vscode/code";
     env_PATH := Some "/usr/bin";
     clock := clock;
     utcOffset := 0;
     display := fun _ => [];
     mkdtempSuffix := fun _ => "AbC123";
     launchError := launchError;
     windowError := fun _ => None |}.

(** The clock advances one second per reading; the host starts. *)
Definition linuxAgent : Env :=
  linuxAgentWith (fun k => 1000 * Z.of_nat k) (fun _ => None).

(** The clock advances half a second per reading. *)
Definition halfSecondClock : Env :=
  linuxAgentWith (fun k => 500 * Z.of_nat k) (fun _ => None).

(** The wall clock is set back one second between readings ([Date]
    follows the system clock, which is not monotonic). *)
Definition clockSetBack : Env :=
  linuxAgentWith (fun k => 60000 - 1000 * Z.of_nat k) (fun _ => None).

(** The host does not start. *)
Definition hostDoesNotStart : Env :=
  linuxAgentWith (fun k => 1000 * Z.of_nat k)
    (fun _ => Some "electron.launch: Process failed to launch!").

(** A Windows build agent. *)
Definition windowsAgent : Env :=
  {| platform := win32;
     BUILD_ARTIFACT_STAGING_DIRECTORY := Some "C:\artifacts";
     dirname__ := "C:\repo\src\common";
     path_resolve := NodePath.win32_join;
     tmpdir := "C:\Temp";
     executablePath := "C:\vscode\Code.exe";
     env_PATH := Some "C:\Windows";
     clock := fun k => 1000 * Z.of_nat k;
     utcOffset := 0;
     display := fun _ => [];
     mkdtempSuffix := fun _ => "AbC123";
     launchError := fun _ => None;
     windowError := fun _ => None |}.

(** The start of a process: a fresh singleton, nothing done yet. The page
    state counts the inspections made of it. *)
Definition freshWorld : World nat :=
  mkWorld newScreenshot 0%nat [] 0%nat.

(** A condition that never comes true. *)
Definition neverTrue : Predicate nat := fun u => (Normal false, S u).

(** A condition that holds from the [n]-th inspection of the page on. *)
Definition trueFrom (n : nat) : Predicate nat :=
  fun u => (Normal (n <=? u)%nat, S u).

(** A condition whose check fails from the [n]-th inspection on. *)
Definition faultFrom (n : nat) : Predicate nat :=
  fun u => (if (n <=? u)%nat then Throw "locator detached" else Normal false,
            S u).

(** A case with two captures, not yet flushed. *)
Definition twoCaptures (env : Env) : World nat :=
  snd ((setDir env "case" ;; screenShot env "a.png" ;;
        screenShot env "b.png")%harness freshWorld).

(** A test body that launches the host once and does nothing else. *)
Definition launchOnce {U} (launch : LaunchOptions -> M U Context)
    : M U Context :=
  launch {| extensionPath := None; workspacePath := "test"; trace' := None |}.

(** ** The texts the steps accept *)

(** What may follow the package name in the text of an emitter's checkbox:
    nothing, or one of the three suffixes that [selectEmitters] removes. *)
Definition emitterNoise : list string :=
  [""; "Azure"; "Settings"; "similar commands"].

(** A description that none of the removed suffixes ends. *)
Definition plainDescription (d : string) : bool :=
  Js.nonEmpty d
  && negb (JsText.endsWith "Azure" d)
  && negb (JsText.endsWith "Settings" d)
  && negb (JsText.endsWith "similar commands" d).


(** ** Polling, as the steps use it *)

(** [fn] answers [false] at each of its first [k] calls from the page of
    [w]. *)
Definition unmetFor {U} (fn : Predicate U) (k : nat) (w : World U) : Prop :=
  forall j, (j < k)%nat -> fst (fn (polled fn j (ui w))) = Normal false.

(** [fn] answers [false] [k] times from the page of [w], then [true]. *)
Definition metAfter {U} (fn : Predicate U) (k : nat) (w : World U) : Prop :=
  unmetFor fn k w /\ fst (fn (polled fn k (ui w))) = Normal true.

(** The world after [n] attempts of the polling loop started in [w]. *)
Definition polledWorld {U} (fn : Predicate U) (gap : Z) (n : nat)
    (w : World U) : World U :=
  mkWorld (shot w) (polled fn n (ui w)) (trace w ++ attemptEvents gap n)
          (tick w).

(** The world left by the statements of [retry] after its loop, entered in
    [w1]: the error frame captured, the buffer flushed, the host closed. *)
Definition gaveUp {U} (env : Env) (w1 : World U) : World U :=
  mkWorld (shot (saved env (captured env "error.png" w1)))
          (ui w1) (trace w1 ++ exhaustionEvents env w1) (S (S (tick w1))).

(** The world left by a call on the page. *)
Definition afterCall {U A} (call : U -> Outcome A * U) (w : World U)
    : World U :=
  mkWorld (shot w) (snd (call (ui w))) (trace w) (tick w).

(** A step that polls with [fn] and, once [fn] holds within three
    attempts, captures [fileName] and then presses Enter, handing on what
    the key press answers. *)
Definition confirmsOnceShown {U} (env : Env) (page : Driver U)
    (step : M U unit) (fn : Predicate U) (fileName : string) : Prop :=
  forall k w,
    (k < 3)%nat -> metAfter fn k w ->
    let w2 := captured env fileName (polledWorld fn 2 (S k) w) in
    step w = (fst (keyboard_press page "Enter" (ui w2)),
              afterCall (keyboard_press page "Enter") w2).

(** A step that polls with [fn] and, when [fn] fails three times, throws
    [errMessage] after the steps of exhaustion, having done nothing on the
    page but the three polls. *)
Definition givesUpUnconfirmed {U} (env : Env) (step : M U unit)
    (fn : Predicate U) (errMessage : string) : Prop :=
  forall w,
    unmetFor fn 3 w ->
    step w = (Throw errMessage, gaveUp env (polledWorld fn 2 3 w)).

(** ** A scripted page, for the examples *)

(** The state of the scripted page: how often it was inspected, and what
    was done on it. *)
Record Screen := mkScreen {
  looks : nat;
  acts : list string
}.

Definition looked (u : Screen) : Screen :=
  {| looks := S (looks u); acts := acts u |}.

Definition acted (what : string) (u : Screen) : Screen :=
  {| looks := looks u; acts := (acts u ++ [what])%list |}.

(** A page on which what the steps wait for is there from inspection
    number [shownFrom] on; every title box and label then reads [text], and
    every emitter's checkbox its name followed by its description. *)
Definition scriptedPage (shownFrom : nat) (text : string) : Driver Screen :=
  {| locator_count := fun _ u =>
       (Normal (if (shownFrom <=? looks u)%nat then 1%nat else 0%nat),
        looked u);
     locator_textContent := fun _ u =>
       (Normal (if (shownFrom <=? looks u)%nat then Some text else None),
        looked u);
     locator_allTextContents := fun _ u =>
       (Normal (if (shownFrom <=? looks u)%nat then [text] else []),
        looked u);
     locator_click := fun _ u => (Normal tt, acted "click" u);
     locator_check := fun _ u => (Normal tt, acted "check" u);
     keyboard_press := fun key u => (Normal tt, acted key u);
     emitter_reads := fun u =>
       (Normal (fun e =>
                  if (shownFrom <=? looks u)%nat
                  then (1%nat, Some (name e ++ description e))
                  else (0%nat, None)),
        looked u) |}.

(** The start of a process in front of the scripted page. *)
Definition freshScreen : World Screen :=
  mkWorld newScreenshot (mkScreen 0 []) [] 0%nat.


(** The message of [selectTemplate] when the template is not listed. *)
Definition templateNotFound (templateName : string) : string :=
  "Failed to find the following template: " ++ dquote ++ templateName
    ++ dquote ++ ".".


(** A page on which every link is there but no label is. *)
Definition pageWithoutLabels : Driver Screen :=
  {| locator_count := fun _ u => (Normal 1%nat, looked u);
     locator_textContent := fun _ u => (Normal None, looked u);
     locator_allTextContents := fun _ u => (Normal [], looked u);
     locator_click := fun _ u => (Normal tt, acted "click" u);
     locator_check := fun _ u => (Normal tt, acted "check" u);
     keyboard_press := fun key u => (Normal tt, acted key u);
     emitter_reads := fun u => (Normal (fun _ => (0%nat, None)), looked u) |}.


(** ** File names *)

(** The part of a path after its last ['/']: the whole path when it has
    none. *)
Definition fileNameOf (path : string) : string :=
  Js.substring1 path (Js.lastIndexOf "/" path + 1).

(** The paths of the buffers written in a trace, in the order written. *)
Fixpoint writtenPaths (t : list Event) : list string :=
  match t with
  | [] => []
  | EvWriteFile path _ :: r => path :: writtenPaths r
  | _ :: r => writtenPaths r
  end.


(** [s] ends with [name], a piece free of ['/'], after a part that is
    empty or ends with ['/']. *)
Definition endsInName (s name : string) : Prop :=
  Js.lastIndexOf "/" name = -1
  /\ (s = name \/ exists d, s = d ++ String "/" name).


(** Common steps that do nothing, and a case of the list. *)
Definition idleSteps : CommonSteps Screen :=
  {| contrastResult := fun _ _ => ret tt;
     startWithCommandPalette := fun _ _ _ => ret tt;
     selectFolder := fun _ => ret tt;
     preContrastResult := fun _ _ _ _ => ret tt;
     installExtensionForCommand := fun _ _ => ret tt;
     createTestFile := fun _ => ret tt;
     deleteTestFile := fun _ => ret tt;
     notEmptyFolderContinue := fun _ => ret tt |}.

Definition genericRestApiCase : CreateCase :=
  {| caseName := "CreateTypespec-GenericRestAPI";
     triggeredByCommand := false;
     templateName := "Generic Rest API";
     templateNameDescription := "Create a project";
     isEmptyFolder := true;
     expectedResults := ["main.tsp"; "tspconfig.yaml"] |}.

(** Two captures under one file name, not yet flushed. *)
Definition sameNameTwice (env : Env) : World nat :=
  snd ((setDir env "case" ;; screenShot env "same.png" ;;
        screenShot env "same.png")%harness freshWorld).


(** The wall clock is set back after the first capture and then stands
    still: the captures that follow fall in one millisecond. *)
Definition clockStalls : Env :=
  linuxAgentWith (fun k => if (k <=? 3)%nat then 5000 else 1000)
    (fun _ => None).

(** Three captures, not yet flushed. *)
Definition threeCaptures (env : Env) : World nat :=
  snd ((setDir env "case" ;; screenShot env "a.png" ;;
        screenShot env "b.png" ;; screenShot env "c.png")%harness freshWorld).


(* ===================================================================== *)
(** * Facts about the library models *)
(* ===================================================================== *)

Section SortFacts.
Context {A : Type} (key : A -> Z).

Lemma insert_Permutation (x : A) (l : list A) :
  Permutation (Js.insert (keyCompare key) x l) (x :: l).
Proof.
  induction l as [|y r IH]; simpl.
  - apply Permutation_refl.
  - destruct (keyCompare key x y <=? 0).
    + apply Permutation_refl.
    + eapply perm_trans; [apply perm_skip, IH | apply perm_swap].
Qed.

Lemma sort_Permutation (l : list A) :
  Permutation (Js.sort (keyCompare key) l) l.
Proof.
  induction l as [|x r IH]; simpl.
  - constructor.
  - eapply perm_trans; [apply insert_Permutation | apply perm_skip, IH].
Qed.

Lemma insert_sorted (x : A) (l : list A) :
  StronglySorted (keyLe key) l ->
  StronglySorted (keyLe key) (Js.insert (keyCompare key) x l).
Proof.
  induction 1 as [|y r Hr IH Hy]; simpl.
  - repeat constructor.
  - destruct (Z.leb_spec (keyCompare key x y) 0) as [Hxy|Hxy].
    + constructor; [constructor; assumption|].
      constructor; [unfold keyCompare in Hxy; unfold keyLe; lia|].
      eapply Forall_impl; [|exact Hy].
      intros a Ha. unfold keyCompare in Hxy. unfold keyLe in *. lia.
    + constructor; [assumption|].
      eapply Permutation_Forall;
        [apply Permutation_sym, insert_Permutation|].
      constructor; [unfold keyCompare in Hxy; unfold keyLe; lia | assumption].
Qed.

Lemma sort_sorted (l : list A) :
  StronglySorted (keyLe key) (Js.sort (keyCompare key) l).
Proof.
  induction l as [|x r IH]; simpl; [constructor | now apply insert_sorted].
Qed.

Lemma sort_of_sorted (l : list A) :
  StronglySorted (keyLe key) l -> Js.sort (keyCompare key) l = l.
Proof.
  induction 1 as [|x r Hr IH Hx]; simpl; [reflexivity|].
  rewrite IH. destruct r as [|y r']; [reflexivity|]. simpl.
  inversion Hx as [|? ? Hxy _]; subst.
  destruct (Z.leb_spec (keyCompare key x y) 0) as [_|Hc]; [reflexivity|].
  unfold keyCompare in Hc. unfold keyLe in Hxy. lia.
Qed.

Lemma sort_idempotent (l : list A) :
  Js.sort (keyCompare key) (Js.sort (keyCompare key) l)
  = Js.sort (keyCompare key) l.
Proof. apply sort_of_sorted, sort_sorted. Qed.

(** Stability: insertion never passes an element of equal key. *)
Lemma filter_insert (d : Z) (x : A) (l : list A) :
  filter (fun a => key a =? d) (Js.insert (keyCompare key) x l)
  = filter (fun a => key a =? d) (x :: l).
Proof.
  induction l as [|y r IH]; simpl; [reflexivity|].
  destruct (Z.leb_spec (keyCompare key x y) 0) as [Hc|Hc]; simpl; [reflexivity|].
  rewrite IH. simpl. unfold keyCompare in Hc.
  destruct (Z.eqb_spec (key x) d), (Z.eqb_spec (key y) d);
    try reflexivity; lia.
Qed.

Lemma filter_sort (d : Z) (l : list A) :
  filter (fun a => key a =? d) (Js.sort (keyCompare key) l)
  = filter (fun a => key a =? d) l.
Proof.
  induction l as [|x r IH]; simpl; [reflexivity|].
  rewrite filter_insert. simpl. now rewrite IH.
Qed.

(** In a list sorted by keys that are pairwise distinct, positions and
    keys are ordered alike. *)
Lemma sorted_nth_le (l : list A) (i j : nat) (a b : A) :
  StronglySorted (keyLe key) l ->
  nth_error l i = Some a -> nth_error l j = Some b ->
  (i < j)%nat -> key a <= key b.
Proof.
  intros Hs. revert i j.
  induction Hs as [|x r Hr IH Hx]; intros i j Hi Hj Hij.
  - destruct i; discriminate.
  - destruct j as [|j]; [lia|]. simpl in Hj.
    destruct i as [|i]; simpl in Hi.
    + injection Hi as <-.
      rewrite Forall_forall in Hx. apply Hx.
      eapply nth_error_In; eassumption.
    + apply (IH i j); [assumption | assumption | lia].
Qed.

Lemma NoDup_nth_key (l : list A) (i j : nat) (a b : A) :
  NoDup (map key l) ->
  nth_error l i = Some a -> nth_error l j = Some b ->
  key a = key b -> i = j.
Proof.
  intros Hn Hi Hj Hk.
  assert (Hli : (i < List.length (map key l))%nat).
  { rewrite length_map. apply nth_error_Some. congruence. }
  apply (proj1 (NoDup_nth_error (map key l)) Hn i j Hli).
  rewrite !nth_error_map, Hi, Hj. simpl. congruence.
Qed.

Lemma sorted_distinct_order (l : list A) (i j : nat) (a b : A) :
  StronglySorted (keyLe key) l -> NoDup (map key l) ->
  nth_error l i = Some a -> nth_error l j = Some b ->
  ((i < j)%nat <-> key a < key b).
Proof.
  intros Hs Hn Hi Hj. split; intros H.
  - pose proof (sorted_nth_le l i j a b Hs Hi Hj H) as Hle.
    destruct (Z.eq_dec (key a) (key b)) as [E|E]; [|lia].
    pose proof (NoDup_nth_key l i j a b Hn Hi Hj E). lia.
  - destruct (Nat.lt_trichotomy i j) as [Hlt|[Heq|Hgt]]; [assumption| |].
    + subst j. rewrite Hi in Hj. injection Hj as <-. lia.
    + pose proof (sorted_nth_le l j i b a Hs Hj Hi Hgt). lia.
Qed.
End SortFacts.

(** The sort of [save]. *)
Section ByDate.
Implicit Types l : list Frame.

Lemma byDate_Permutation l : Permutation (Js.sort byDate l) l.
Proof. exact (sort_Permutation date l). Qed.

Lemma byDate_ascending l : ascending (Js.sort byDate l).
Proof. exact (sort_sorted date l). Qed.

Lemma byDate_of_ascending l : ascending l -> Js.sort byDate l = l.
Proof. exact (sort_of_sorted date l). Qed.

Lemma byDate_idempotent l :
  Js.sort byDate (Js.sort byDate l) = Js.sort byDate l.
Proof. exact (sort_idempotent date l). Qed.

Lemma byDate_stable (d : Z) l :
  filter (hasDate d) (Js.sort byDate l) = filter (hasDate d) l.
Proof. exact (filter_sort date d l). Qed.
End ByDate.

(* ===================================================================== *)
(** * How the operations run *)
(* ===================================================================== *)

Section RunFacts.
Context {U : Type} (env : Env).
Implicit Types w : World U.

Lemma saveLoop_run (items : list Frame) : forall i w,
  saveLoop env i items w
  = (Normal tt,
     mkWorld (shot w) (ui w) (trace w ++ saveEvents env i items) (tick w)).
Proof.
  induction items as [|f rest IH]; intros i w.
  - simpl. unfold ret. rewrite app_nil_r. now destruct w.
  - simpl. unfold bind, emitEvent. simpl. rewrite IH. simpl.
    now rewrite <- !app_assoc.
Qed.

Lemma save_run w : save env w = (Normal tt, saved env w).
Proof.
  unfold save, saved, bind, getShot.
  destruct w as [[ct cd fl] u t k]; simpl.
  destruct fl as [|f fl]; simpl.
  - unfold ret. now rewrite app_nil_r.
  - unfold putShot. simpl.
    fold (@byDate). change (fun a b : Frame => date a - date b) with byDate.
    now rewrite saveLoop_run.
Qed.

Lemma screenShot_run (fileName : string) w :
  screenShot env fileName w = (Normal tt, captured env fileName w).
Proof.
  unfold screenShot, captured, capturedFrame, sleep, screenshotDesktop,
    dateNow, bind, emitEvent, nextTick, getShot, putShot, ret.
  simpl. now rewrite <- app_assoc.
Qed.

Lemma attempt_run (fn : Predicate U) (gap : Z) w :
  (sleep gap ;; invoke fn) w
  = (fst (fn (ui w)),
     mkWorld (shot w) (snd (fn (ui w)))
             (trace w ++ [EvSleep gap; EvInvoke]) (tick w)).
Proof.
  unfold sleep, invoke, bind, emitEvent. simpl.
  destruct (fn (ui w)) as [r u']. simpl. now rewrite <- app_assoc.
Qed.

Lemma retryLoop_nonpos (count : Z) (fn : Predicate U) (gap : Z) w :
  count <= 0 -> retryLoop count fn gap w = (Normal Exhausted, w).
Proof.
  intros H. simp retryLoop.
  destruct (Z_lt_dec 0 count); [lia | now simp retryLoop].
Qed.

Lemma retryLoop_pos (count : Z) (fn : Predicate U) (gap : Z) w :
  0 < count ->
  retryLoop count fn gap w
  = match (sleep gap ;; invoke fn) w with
    | (Normal true, w') => (Normal Returned, w')
    | (Normal false, w') => retryLoop (count - 1) fn gap w'
    | (Throw e, w') => (Throw e, w')
    end.
Proof.
  intros H. simp retryLoop.
  destruct (Z_lt_dec 0 count); [now simp retryLoop | lia].
Qed.

Lemma attemptEvents_S (gap : Z) (n : nat) :
  attemptEvents gap (S n)
  = ([EvSleep gap; EvInvoke] ++ attemptEvents gap n)%list.
Proof. reflexivity. Qed.

(** A predicate that answers [false] whenever it is asked uses up the
    whole budget: [Z.to_nat count] attempts, each a wait then a call. *)
Lemma retryLoop_all_false (fn : Predicate U) (gap : Z) :
  (forall u, fst (fn u) = Normal false) ->
  forall (n : nat) (count : Z) w,
    Z.to_nat count = n ->
    retryLoop count fn gap w
    = (Normal Exhausted,
       mkWorld (shot w) (polled fn n (ui w))
               (trace w ++ attemptEvents gap n) (tick w)).
Proof.
  intros Hfalse. induction n as [|n IH]; intros count w Hn.
  - rewrite retryLoop_nonpos by lia. simpl.
    unfold attemptEvents. simpl. rewrite app_nil_r. now destruct w.
  - rewrite retryLoop_pos by lia. rewrite attempt_run, Hfalse.
    rewrite IH by lia. simpl.
    rewrite attemptEvents_S, <- app_assoc. reflexivity.
Qed.

(** Every run of [retry] whose loop is left by exhaustion. *)
Lemma retry_after_exhaustion (count : Z) (fn : Predicate U)
    (errMessage : string) (gap : option Z) w w1 :
  retryLoop count fn (match gap with Some g => g | None => 2 end) w
    = (Normal Exhausted, w1) ->
  retry env count fn errMessage gap w
  = (Throw errMessage,
     mkWorld (shot (saved env (captured env "error.png" w1)))
             (ui w1) (trace w1 ++ exhaustionEvents env w1)
             (S (S (tick w1)))).
Proof.
  intros Hloop. unfold retry, bind at 1. rewrite Hloop.
  unfold onExhausted, bind. rewrite screenShot_run, save_run.
  unfold closeVscode, emitEvent, throw, exhaustionEvents, saved, captured.
  simpl. now rewrite <- !app_assoc.
Qed.
End RunFacts.

(* ===================================================================== *)
(** * The retry/poll engine *)
(* ===================================================================== *)

Section RetryTheorems.
Context {U : Type} (env : Env).
Implicit Types w : World U.

Lemma saveEvents_writes_all (items : list Frame) (f : Frame) :
  In f items -> forall k,
  exists i, In (EvWriteFile (prefixedPath env i (fullPath f)) (buffer f))
               (saveEvents env k items).
Proof.
  induction items as [|g rest IH]; intros Hin k; [contradiction|].
  destruct Hin as [->|Hin].
  - exists k. simpl. auto.
  - destruct (IH Hin (S k)) as [i Hi]. exists i. simpl. auto.
Qed.

Lemma invocations_app (a b : list Event) :
  invocations (a ++ b) = (invocations a + invocations b)%nat.
Proof. unfold invocations. now rewrite filter_app, length_app. Qed.

Lemma invocations_saveEvents (items : list Frame) : forall k,
  invocations (saveEvents env k items) = 0%nat.
Proof. induction items as [|f r IH]; intros k; simpl; auto. apply IH. Qed.

Lemma invocations_exhaustionEvents w :
  invocations (exhaustionEvents env w) = 0%nat.
Proof.
  unfold exhaustionEvents.
  rewrite !invocations_app, invocations_saveEvents. reflexivity.
Qed.

Lemma invocations_attemptEvents (gap : Z) (n : nat) :
  invocations (attemptEvents gap n) = n.
Proof.
  induction n as [|n IH]; [reflexivity|].
  rewrite attemptEvents_S, invocations_app, IH. reflexivity.
Qed.

(** C1. When the loop of [retry] is left because the budget is used up
    (every attempt answered [false]), [retry] does, in this order and with
    nothing in between: the capture of ["error.png"] (settle delay, then
    the grab, whose frame joins the buffer), the flush of every buffered
    frame including that one (one write per frame), the teardown
    [closeVscode()]; and only then throws the error whose message is the
    caller's [errMessage], unchanged. *)
Theorem retry_exhaustion_sequence (count : Z) (fn : Predicate U)
    (errMessage : string) (gap : option Z) w w1 :
  retryLoop count fn (gapOf gap) w = (Normal Exhausted, w1) ->
  let errorFrame := capturedFrame env "error.png" w1 in
  let flushed := Js.sort byDate (fileList (shot w1) ++ [errorFrame]) in
  let w' := snd (retry env count fn errMessage gap w) in
  fst (retry env count fn errMessage gap w) = Throw errMessage
  /\ trace w'
     = (trace w1 ++ [EvSleep 3; EvGrab]
          ++ saveEvents env 0 flushed ++ [EvCloseVscode])%list
  /\ fullPath errorFrame
     = path_join env [rootDir env; platformDir env;
                      typeMenu (createType (shot w1));
                      currentDir (shot w1); "error.png"]
  /\ fileList (shot w') = flushed
  /\ (forall f, In f (fileList (shot w1) ++ [errorFrame]) ->
      exists i, In (EvWriteFile (prefixedPath env i (fullPath f)) (buffer f))
                   (saveEvents env 0 flushed)).
Proof.
  intros Hloop errorFrame flushed w'.
  subst w'. rewrite (retry_after_exhaustion env _ _ _ _ _ _ Hloop). simpl.
  repeat split.
  intros f Hf. apply saveEvents_writes_all.
  eapply Permutation_in; [apply Permutation_sym, byDate_Permutation|].
  exact Hf.
Qed.

(** C3. With a budget [count > 0] and a predicate that answers [false]
    whenever it is called, [retry] calls the predicate exactly [count]
    times, waits [gap] seconds before each call, then goes through the
    exhaustion steps and throws the error whose message is
    [errMessage]. *)
Theorem retry_always_false_attempts (count : Z) (fn : Predicate U)
    (errMessage : string) (gap : option Z) w :
  0 < count ->
  (forall u, fst (fn u) = Normal false) ->
  let n := Z.to_nat count in
  let w' := snd (retry env count fn errMessage gap w) in
  exists w1,
    retryLoop count fn (gapOf gap) w = (Normal Exhausted, w1)
    /\ trace w1 = (trace w ++ attemptEvents (gapOf gap) n)%list
    /\ ui w1 = polled fn n (ui w)
    /\ fst (retry env count fn errMessage gap w) = Throw errMessage
    /\ trace w'
       = (trace w ++ attemptEvents (gapOf gap) n
            ++ exhaustionEvents env w1)%list
    /\ invocations (trace w') = (invocations (trace w) + n)%nat
    /\ ui w' = polled fn n (ui w).
Proof.
  intros Hpos Hfalse n w'.
  pose proof (retryLoop_all_false fn (gapOf gap) Hfalse n count w eq_refl)
    as Hloop.
  eexists. split; [exact Hloop|].
  subst w'. rewrite (retry_after_exhaustion env _ _ _ _ _ _ Hloop). simpl.
  repeat split.
  - now rewrite <- app_assoc.
  - rewrite !invocations_app, invocations_attemptEvents,
      invocations_exhaustionEvents. lia.
Qed.

(** C4, as the code has it. With a budget of zero or less, [retry] makes
    no attempt at all: it neither waits the interval nor calls the
    predicate, and goes straight to the exhaustion steps (which start with
    the capture and its own settle delay) and throws [errMessage]. *)
Theorem retry_nonpositive_budget (count : Z) (fn : Predicate U)
    (errMessage : string) (gap : option Z) w :
  count <= 0 ->
  let w' := snd (retry env count fn errMessage gap w) in
  retryLoop count fn (gapOf gap) w = (Normal Exhausted, w)
  /\ fst (retry env count fn errMessage gap w) = Throw errMessage
  /\ trace w' = (trace w ++ exhaustionEvents env w)%list
  /\ invocations (trace w') = invocations (trace w)
  /\ ui w' = ui w.
Proof.
  intros Hle w'.
  pose proof (retryLoop_nonpos count fn (gapOf gap) w Hle) as Hloop.
  split; [exact Hloop|].
  subst w'. rewrite (retry_after_exhaustion env _ _ _ _ _ _ Hloop). simpl.
  repeat split.
  rewrite invocations_app, invocations_exhaustionEvents. lia.
Qed.
End RetryTheorems.

Section RetryOutcomes.
Context {U : Type} (env : Env).
Implicit Types w : World U.

(** As long as the predicate answers [false], the loop goes on with one
    attempt less. *)
Lemma retryLoop_prefix_false (fn : Predicate U) (gap : Z) :
  forall (m : nat) (count : Z) w,
    Z.of_nat m <= count ->
    (forall j, (j < m)%nat -> fst (fn (polled fn j (ui w))) = Normal false) ->
    retryLoop count fn gap w
    = retryLoop (count - Z.of_nat m) fn gap
        (mkWorld (shot w) (polled fn m (ui w))
                 (trace w ++ attemptEvents gap m) (tick w)).
Proof.
  induction m as [|m IH]; intros count w Hm Hfalse.
  - replace (count - Z.of_nat 0) with count by lia.
    unfold attemptEvents. simpl. rewrite app_nil_r. now destruct w.
  - rewrite retryLoop_pos by lia. rewrite attempt_run.
    pose proof (Hfalse 0%nat ltac:(lia)) as H0. simpl in H0. rewrite H0.
    rewrite IH; [|lia|intros j Hj; apply (Hfalse (S j)); lia].
    simpl. rewrite attemptEvents_S, <- app_assoc.
    f_equal. lia.
Qed.

Lemma polled_last (fn : Predicate U) (k : nat) : forall u,
  polled fn (S k) u = snd (fn (polled fn k u)).
Proof.
  induction k as [|k IH]; intros u; [reflexivity|].
  change (polled fn (S (S k)) u) with (polled fn (S k) (snd (fn u))).
  now rewrite IH.
Qed.

Lemma attemptEvents_last (gap : Z) (k : nat) :
  attemptEvents gap (S k)
  = (attemptEvents gap k ++ [EvSleep gap; EvInvoke])%list.
Proof.
  induction k as [|k IH]; [reflexivity|].
  rewrite attemptEvents_S, IH at 1. rewrite (attemptEvents_S gap k).
  now rewrite <- app_assoc.
Qed.

(** X1. When the predicate answers [false] [k] times and then [true], within
    the budget, [retry] returns after exactly [k + 1] attempts, each a wait
    of the interval followed by a call: no capture, no flush, no teardown,
    and the buffer is as it was. *)
Theorem retry_returns_on_first_true (count : Z) (fn : Predicate U)
    (errMessage : string) (gap : option Z) (k : nat) w :
  Z.of_nat (S k) <= count ->
  (forall j, (j < k)%nat -> fst (fn (polled fn j (ui w))) = Normal false) ->
  fst (fn (polled fn k (ui w))) = Normal true ->
  retry env count fn errMessage gap w
  = (Normal tt,
     mkWorld (shot w) (polled fn (S k) (ui w))
             (trace w ++ attemptEvents (gapOf gap) (S k)) (tick w)).
Proof.
  intros Hk Hfalse Htrue. unfold retry, bind. fold (gapOf gap).
  rewrite (retryLoop_prefix_false fn (gapOf gap) k count w)
    by (lia || assumption).
  rewrite retryLoop_pos by lia. rewrite attempt_run. simpl.
  rewrite Htrue. unfold ret.
  change (polled fn k (snd (fn (ui w)))) with (polled fn (S k) (ui w)).
  now rewrite polled_last, attemptEvents_last, app_assoc.
Qed.

(** X2. When the predicate answers [false] [k] times and then throws, within
    the budget, [retry] passes the predicate's own error on at once: no
    further attempt, no capture, no flush, no teardown. *)
Theorem retry_propagates_predicate_error (count : Z) (fn : Predicate U)
    (errMessage : string) (gap : option Z) (k : nat) (e : string) w :
  Z.of_nat (S k) <= count ->
  (forall j, (j < k)%nat -> fst (fn (polled fn j (ui w))) = Normal false) ->
  fst (fn (polled fn k (ui w))) = Throw e ->
  fst (retry env count fn errMessage gap w) = Throw e
  /\ trace (snd (retry env count fn errMessage gap w))
     = (trace w ++ attemptEvents (gapOf gap) k
          ++ [EvSleep (gapOf gap); EvInvoke])%list
  /\ shot (snd (retry env count fn errMessage gap w)) = shot w.
Proof.
  intros Hk Hfalse Hthrow. unfold retry, bind. fold (gapOf gap).
  rewrite (retryLoop_prefix_false fn (gapOf gap) k count w)
    by (lia || assumption).
  rewrite retryLoop_pos by lia. rewrite attempt_run. simpl.
  rewrite Hthrow. simpl. repeat split. now rewrite <- app_assoc.
Qed.
End RetryOutcomes.

(** ** The engine on a concrete run *)

Lemma retry_exhaustion_sequence_witness :
  retryLoop 3 neverTrue (gapOf None) freshWorld
    = (Normal Exhausted,
       mkWorld newScreenshot 3%nat (attemptEvents 2 3) 0%nat)
  /\ fst (retry linuxAgent 3 neverTrue "boom" None freshWorld) = Throw "boom"
  /\ trace (snd (retry linuxAgent 3 neverTrue "boom" None freshWorld))
     = (attemptEvents 2 3
          ++ [EvSleep 3; EvGrab;
              EvMkdirParent
                "/artifacts/images-linux/CreateTypeSpecProject/0_error.png";
              EvWriteFile
                "/artifacts/images-linux/CreateTypeSpecProject/0_error.png" [];
              EvCloseVscode])%list.
Proof.
  assert (H : retryLoop 3 neverTrue (gapOf None) freshWorld
              = (Normal Exhausted,
                 mkWorld newScreenshot 3%nat (attemptEvents 2 3) 0%nat))
    by reflexivity.
  split; [exact H|].
  destruct (retry_exhaustion_sequence linuxAgent 3 neverTrue "boom" None
              freshWorld _ H) as (Hthrow & Htrace & _).
  split; [exact Hthrow | exact Htrace].
Defined.

Lemma retry_always_false_attempts_witness :
  0 < 3
  /\ (forall u, fst (neverTrue u) = Normal false)
  /\ fst (retry linuxAgent 3 neverTrue "boom" (Some 5) freshWorld)
     = Throw "boom"
  /\ invocations
       (trace (snd (retry linuxAgent 3 neverTrue "boom" (Some 5) freshWorld)))
     = 3%nat
  /\ waitsOf 5
       (trace (snd (retry linuxAgent 3 neverTrue "boom" (Some 5) freshWorld)))
     = 3%nat.
Proof.
  assert (Hpos : 0 < 3) by lia.
  assert (Hfalse : forall u, fst (neverTrue u) = Normal false)
    by (intros u; reflexivity).
  split; [exact Hpos|]. split; [exact Hfalse|].
  destruct (retry_always_false_attempts linuxAgent 3 neverTrue "boom" (Some 5)
              freshWorld Hpos Hfalse)
    as (w1 & _ & _ & _ & Hthrow & _ & Hcalls & _).
  split; [exact Hthrow|]. split; [exact Hcalls | reflexivity].
Defined.

Lemma retry_nonpositive_budget_witness :
  -1 <= 0
  /\ fst (retry linuxAgent (-1) neverTrue "boom" None freshWorld) = Throw "boom"
  /\ trace (snd (retry linuxAgent (-1) neverTrue "boom" None freshWorld))
     = exhaustionEvents linuxAgent freshWorld
  /\ ui (snd (retry linuxAgent (-1) neverTrue "boom" None freshWorld)) = 0%nat.
Proof.
  assert (Hle : -1 <= 0) by lia.
  split; [exact Hle|].
  destruct (retry_nonpositive_budget linuxAgent (-1) neverTrue "boom" None
              freshWorld Hle) as (_ & Hthrow & Htrace & _ & Hui).
  split; [exact Hthrow|]. split; [exact Htrace | exact Hui].
Defined.

Lemma retry_returns_on_first_true_witness :
  Z.of_nat 2 <= 3
  /\ retry linuxAgent 3 (trueFrom 1) "boom" None freshWorld
     = (Normal tt,
        mkWorld newScreenshot 2%nat
                [EvSleep 2; EvInvoke; EvSleep 2; EvInvoke] 0%nat).
Proof.
  assert (Hk : Z.of_nat 2 <= 3) by lia.
  split; [exact Hk|].
  apply (retry_returns_on_first_true linuxAgent 3 (trueFrom 1) "boom" None
           1%nat freshWorld Hk).
  - intros j Hj. destruct j as [|j]; [reflexivity | lia].
  - reflexivity.
Defined.

Lemma retry_propagates_predicate_error_witness :
  Z.of_nat 2 <= 3
  /\ fst (retry linuxAgent 3 (faultFrom 1) "boom" None freshWorld)
     = Throw "locator detached"
  /\ trace (snd (retry linuxAgent 3 (faultFrom 1) "boom" None freshWorld))
     = [EvSleep 2; EvInvoke; EvSleep 2; EvInvoke].
Proof.
  assert (Hk : Z.of_nat 2 <= 3) by lia.
  split; [exact Hk|].
  destruct (retry_propagates_predicate_error linuxAgent 3 (faultFrom 1) "boom"
              None 1%nat "locator detached" freshWorld Hk)
    as (Hthrow & Htrace & _).
  - intros j Hj. destruct j as [|j]; [reflexivity | lia].
  - reflexivity.
  - split; [exact Hthrow | exact Htrace].
Defined.

(** C4, as stated, fails: with a budget of zero and the default interval
    of 2 seconds the trace of [retry] holds no wait of 2 seconds (the claim
    asks for exactly one); its only wait is the 3 seconds that the capture
    of ["error.png"] lets the screen settle. *)
Lemma retry_zero_budget_waits_no_interval :
  let w' := snd (retry linuxAgent 0 neverTrue "boom" None freshWorld) in
  waitsOf 2 (trace w') <> 1%nat
  /\ waitsOf 2 (trace w') = 0%nat
  /\ trace w'
     = [EvSleep 3; EvGrab;
        EvMkdirParent
          "/artifacts/images-linux/CreateTypeSpecProject/0_error.png";
        EvWriteFile
          "/artifacts/images-linux/CreateTypeSpecProject/0_error.png" [];
        EvCloseVscode].
Proof.
  simpl. split; [|split]; [discriminate | reflexivity | reflexivity].
Qed.

(* ===================================================================== *)
(** * Where the ordinal goes in the path *)
(* ===================================================================== *)

Section StringFacts.
Implicit Types a b c s t : string.

Lemma string_app_assoc a b c : (a ++ b) ++ c = a ++ (b ++ c).
Proof. induction a as [|x a IH]; simpl; [reflexivity | now rewrite IH]. Qed.

Lemma string_length_app a b :
  String.length (a ++ b) = (String.length a + String.length b)%nat.
Proof. induction a as [|x a IH]; simpl; [reflexivity | now rewrite IH]. Qed.

Lemma substring_whole s : String.substring 0 (String.length s) s = s.
Proof. induction s as [|x s IH]; simpl; [reflexivity | now rewrite IH]. Qed.

Lemma substring_app_left a b :
  String.substring 0 (String.length a) (a ++ b) = a.
Proof.
  induction a as [|x a IH]; simpl; [now destruct b | now rewrite IH].
Qed.

(** Cutting a string at [n] and gluing the parts gives the string back. *)
Lemma substring_cut s : forall n,
  (n <= String.length s)%nat ->
  String.substring 0 n s ++ String.substring n (String.length s - n) s = s.
Proof.
  induction s as [|x s IH]; intros n Hn.
  - destruct n; reflexivity.
  - destruct n as [|n].
    + cbn [String.substring append String.length Nat.sub].
      now rewrite substring_whole.
    + cbn [String.substring append String.length Nat.sub].
      rewrite IH by (simpl in Hn; lia). reflexivity.
Qed.

Lemma substring_app_right a b :
  String.substring (String.length a) (String.length b) (a ++ b) = b.
Proof.
  induction a as [|x a IH]; simpl; [apply substring_whole | exact IH].
Qed.

(** Two strings that end with suffixes of equal length agree part by
    part. *)
Lemma string_app_inj_suffix a b s t :
  String.length s = String.length t -> a ++ s = b ++ t -> a = b /\ s = t.
Proof.
  revert b. induction a as [|x a IH]; intros b Hlen Heq; simpl in Heq.
  - destruct b as [|y b]; simpl in Heq; [now split|].
    exfalso. apply (f_equal String.length) in Heq. simpl in Heq.
    rewrite string_length_app in Heq. lia.
  - destruct b as [|y b]; simpl in Heq.
    + exfalso. apply (f_equal String.length) in Heq. simpl in Heq.
      rewrite string_length_app in Heq. lia.
    + injection Heq as -> Heq. destruct (IH b Hlen Heq) as [-> ->].
      now split.
Qed.

Lemma lastIndexOf_lower (x : ascii) s : -1 <= Js.lastIndexOf x s.
Proof.
  induction s as [|y s IH]; simpl; [lia|].
  destruct (Z.leb_spec 0 (Js.lastIndexOf x s)); [lia|].
  destruct (Ascii.eqb y x); lia.
Qed.

Lemma lastIndexOf_upper (x : ascii) s :
  Js.lastIndexOf x s < Z.of_nat (String.length s).
Proof.
  induction s as [|y s IH]; cbn [Js.lastIndexOf String.length]; [lia|].
  destruct (Z.leb_spec 0 (Js.lastIndexOf x s)); [lia|].
  destruct (Ascii.eqb y x); lia.
Qed.

(** The two [substring] calls of [save] cut the file name in two. *)
Lemma substring_around (s : string) (k : Z) :
  0 <= k < Z.of_nat (String.length s) ->
  Js.substring2 s 0 (k + 1) ++ Js.substring1 s (k + 1) = s.
Proof.
  intros Hk. unfold Js.substring1, Js.substring2, Js.clamp.
  rewrite Nat2Z.id. change (Z.to_nat 0) with 0%nat.
  rewrite Nat.min_0_l, Nat.max_0_l, Nat.sub_0_r, Nat.min_id.
  rewrite (Nat.min_l (Z.to_nat (k + 1))) by lia.
  rewrite Nat.min_l, Nat.max_r by lia.
  apply substring_cut. lia.
Qed.

(** The last occurrence of [x] in [a ++ x :: b], when [b] has none. *)
Lemma lastIndexOf_app (x : ascii) a b :
  Js.lastIndexOf x b = -1 ->
  Js.lastIndexOf x (a ++ String x b) = Z.of_nat (String.length a).
Proof.
  intros Hb. induction a as [|y a IH].
  - simpl. rewrite Hb. simpl. now rewrite Ascii.eqb_refl.
  - cbn [append Js.lastIndexOf String.length]. rewrite IH.
    destruct (Z.leb_spec 0 (Z.of_nat (String.length a))); lia.
Qed.

Lemma split_not_nil (sep : ascii) s : Js.split sep s <> [].
Proof.
  destruct s as [|x s]; simpl; [discriminate|].
  destruct (Ascii.eqb x sep); [discriminate|].
  destruct (Js.split sep s); discriminate.
Qed.

Lemma lastItem_setLastItem (l : list string) (v : string) :
  l <> [] -> Js.lastItem (Js.setLastItem l v) = v.
Proof.
  induction l as [|x r IH]; intros Hne; [contradiction|].
  destruct r as [|y r']; [reflexivity|].
  change (Js.setLastItem (x :: y :: r') v)
    with (x :: Js.setLastItem (y :: r') v).
  unfold Js.lastItem in *.
  assert (Hr : Js.setLastItem (y :: r') v <> []).
  { destruct r'; discriminate. }
  destruct (Js.setLastItem (y :: r') v) eqn:E; [contradiction|].
  apply IH. discriminate.
Qed.
End StringFacts.

Section PrefixTheorems.
Context (env : Env).

Lemma substring2_dir (d b : string) :
  Js.substring2 (d ++ String "/" b) 0 (Z.of_nat (String.length d) + 1)
  = d ++ "/".
Proof.
  unfold Js.substring2, Js.clamp.
  rewrite string_length_app. cbn [String.length].
  replace (Z.to_nat 0) with 0%nat by reflexivity.
  replace (Z.to_nat (Z.of_nat (String.length d) + 1))
    with (S (String.length d)) by lia.
  rewrite Nat.min_0_l, Nat.max_0_l, Nat.sub_0_r.
  rewrite Nat.min_l by lia.
  replace (S (String.length d)) with (String.length (d ++ "/"))
    by (rewrite string_length_app; simpl; lia).
  replace (d ++ String "/" b) with ((d ++ "/") ++ b)
    by (rewrite string_app_assoc; reflexivity).
  apply substring_app_left.
Qed.

Lemma substring1_base (d b : string) :
  Js.substring1 (d ++ String "/" b) (Z.of_nat (String.length d) + 1) = b.
Proof.
  unfold Js.substring1, Js.substring2, Js.clamp.
  rewrite string_length_app. cbn [String.length].
  rewrite Nat2Z.id.
  replace (Z.to_nat (Z.of_nat (String.length d) + 1))
    with (S (String.length d)) by lia.
  rewrite (Nat.min_l (S _)) by lia. rewrite Nat.min_id.
  rewrite Nat.min_l by lia. rewrite Nat.max_r by lia.
  replace (String.length d + S (String.length b) - S (String.length d))%nat
    with (String.length b) by lia.
  replace (S (String.length d)) with (String.length (d ++ "/"))
    by (rewrite string_length_app; simpl; lia).
  replace (d ++ String "/" b) with ((d ++ "/") ++ b)
    by (rewrite string_app_assoc; reflexivity).
  apply substring_app_right.
Qed.

(** Whatever the path, the ordinal followed by ['_'] is put inside the
    last piece of the path split at backslashes, the rest of the piece
    kept around it. *)
Lemma prefixedItems_carry_ordinal (i : nat) (p : string) :
  exists d b,
    Js.lastItem (Js.split "\" p) = d ++ b
    /\ Js.lastItem (prefixedItems env i p)
       = d ++ Js.string_of_index i ++ "_" ++ b.
Proof.
  unfold prefixedItems.
  pose proof (split_not_nil "\" p) as Hne.
  set (items := Js.split "\" p) in *.
  set (fileName := Js.lastItem items).
  destruct (isWin32 (platform env)).
  - exists "", fileName. now rewrite lastItem_setLastItem.
  - pose proof (lastIndexOf_lower "/" fileName) as Hlo.
    pose proof (lastIndexOf_upper "/" fileName) as Hup.
    destruct (Z.eqb_spec (Js.lastIndexOf "/" fileName) (-1)) as [E|E];
      cbn [negb].
    + exists "", fileName. now rewrite lastItem_setLastItem.
    + exists (Js.substring2 fileName 0 (Js.lastIndexOf "/" fileName + 1)),
             (Js.substring1 fileName (Js.lastIndexOf "/" fileName + 1)).
      rewrite lastItem_setLastItem by assumption.
      split; [|reflexivity].
      symmetry. apply substring_around. lia.
Qed.

(** C7. On Windows the path [C:\root\cat\case\shot.png] with ordinal 3 is
    written at [C:\root\cat\case\3_shot.png]; elsewhere the path
    [/root/cat/case/shot.png] with ordinal 3 is written at
    [/root/cat/case/3_shot.png]. In general the ordinal goes in front of
    the last piece of the path split at backslashes on Windows, and
    elsewhere after the last ['/'] of that piece, or in front of it when it
    has none. *)
Theorem ordinal_prefix_both_path_styles :
  (platform env = win32 ->
     prefixedPath env 3 "C:\root\cat\case\shot.png"
     = "C:\root\cat\case\3_shot.png")
  /\ (platform env <> win32 ->
        prefixedPath env 3 "/root/cat/case/shot.png"
        = "/root/cat/case/3_shot.png")
  /\ (platform env = win32 -> forall i p,
        prefixedItems env i p
        = Js.setLastItem (Js.split "\" p)
            (Js.string_of_index i ++ "_" ++ Js.lastItem (Js.split "\" p)))
  /\ (platform env <> win32 -> forall i p d b,
        Js.lastItem (Js.split "\" p) = d ++ "/" ++ b ->
        Js.lastIndexOf "/" b = -1 ->
        prefixedItems env i p
        = Js.setLastItem (Js.split "\" p)
            (d ++ "/" ++ Js.string_of_index i ++ "_" ++ b))
  /\ (platform env <> win32 -> forall i p,
        Js.lastIndexOf "/" (Js.lastItem (Js.split "\" p)) = -1 ->
        prefixedItems env i p
        = Js.setLastItem (Js.split "\" p)
            (Js.string_of_index i ++ "_" ++ Js.lastItem (Js.split "\" p))).
Proof.
  assert (Hposix : platform env <> win32 -> isWin32 (platform env) = false).
  { intros H. destruct (platform env); [contradiction | reflexivity
                                                     | reflexivity]. }
  repeat split.
  - intros H. unfold prefixedPath, path_join, prefixedItems. rewrite H.
    reflexivity.
  - intros H. unfold prefixedPath, path_join, prefixedItems.
    rewrite (Hposix H). reflexivity.
  - intros H i p. unfold prefixedItems. rewrite H. reflexivity.
  - intros H i p d b Hlast Hb. unfold prefixedItems. rewrite (Hposix H).
    rewrite Hlast.
    change (d ++ "/" ++ b) with (d ++ String "/" b).
    rewrite (lastIndexOf_app "/" d b Hb).
    destruct (Z.eqb_spec (Z.of_nat (String.length d)) (-1)) as [E|_]; [lia|].
    cbn [negb]. rewrite substring2_dir, substring1_base.
    now rewrite string_app_assoc.
  - intros H i p Hnone. unfold prefixedItems. rewrite (Hposix H).
    rewrite Hnone. reflexivity.
Qed.
End PrefixTheorems.

Lemma ordinal_prefix_both_path_styles_witness :
  platform windowsAgent = win32
  /\ platform linuxAgent <> win32
  /\ prefixedPath windowsAgent 3 "C:\root\cat\case\shot.png"
     = "C:\root\cat\case\3_shot.png"
  /\ prefixedPath linuxAgent 3 "/root/cat/case/shot.png"
     = "/root/cat/case/3_shot.png"
  /\ prefixedItems linuxAgent 12 "/root/cat/case/shot.png"
     = ["/root/cat/case/12_shot.png"].
Proof.
  assert (Hw : platform windowsAgent = win32) by reflexivity.
  assert (Hl : platform linuxAgent <> win32) by discriminate.
  split; [exact Hw|]. split; [exact Hl|].
  destruct (ordinal_prefix_both_path_styles windowsAgent) as (Hwin & _).
  destruct (ordinal_prefix_both_path_styles linuxAgent)
    as (_ & Hposix & _ & Hdir & _).
  split; [exact (Hwin Hw)|]. split; [exact (Hposix Hl)|].
  exact (Hdir Hl 12%nat "/root/cat/case/shot.png" "/root/cat/case" "shot.png"
           eq_refl eq_refl).
Defined.

(* ===================================================================== *)
(** * Diagnostic capture: the order of the flushed frames *)
(* ===================================================================== *)

Section FlushTheorems.
Context {U : Type} (env : Env).
Implicit Types w : World U.

(** The frame at position [i] of the list is written under ordinal
    [k + i]. *)
Lemma saveEvents_nth (items : list Frame) : forall k i f,
  nth_error items i = Some f ->
  nth_error (saveEvents env k items) (2 * i + 1)
  = Some (EvWriteFile (prefixedPath env (k + i) (fullPath f)) (buffer f)).
Proof.
  induction items as [|g rest IH]; intros k i f Hi.
  - destruct i; discriminate.
  - destruct i as [|i]; simpl in Hi.
    + injection Hi as ->. simpl. now rewrite Nat.add_0_r.
    + replace (2 * S i + 1)%nat with (S (S (2 * i + 1))) by lia.
      cbn [saveEvents nth_error].
      rewrite (IH (S k) i f Hi). do 3 f_equal. lia.
Qed.

Lemma save_buffer w :
  fileList (shot (snd (save env w))) = Js.sort byDate (fileList (shot w)).
Proof. now rewrite save_run. Qed.

Lemma save_trace w :
  trace (snd (save env w))
  = (trace w ++ saveEvents env 0 (fileList (shot (snd (save env w)))))%list.
Proof. now rewrite save_run. Qed.

(** C2. Whatever frames with pairwise distinct capture times the buffer
    holds, [save] writes each frame once, frame number [i] of the order
    of writing under ordinal [i], and the ordinals follow the capture
    times: of two frames the one captured earlier has the smaller
    ordinal, so ordinal 0 goes to the earliest frame, 1 to the next, and
    so on. The ordinal is part of the path written (it is put, followed
    by ['_'], inside the last piece of the frame's path), not of the
    moment of the write. *)
Theorem save_ordinals_follow_timestamps w :
  NoDup (map date (fileList (shot w))) ->
  let sorted := fileList (shot (snd (save env w))) in
  fst (save env w) = Normal tt
  /\ Permutation sorted (fileList (shot w))
  /\ trace (snd (save env w)) = (trace w ++ saveEvents env 0 sorted)%list
  /\ (forall i f, nth_error sorted i = Some f ->
        nth_error (saveEvents env 0 sorted) (2 * i + 1)
        = Some (EvWriteFile (prefixedPath env i (fullPath f)) (buffer f)))
  /\ (forall i f, nth_error sorted i = Some f ->
        prefixedPath env i (fullPath f)
        = path_join env (prefixedItems env i (fullPath f))
        /\ exists d b,
             Js.lastItem (Js.split "\" (fullPath f)) = d ++ b
             /\ Js.lastItem (prefixedItems env i (fullPath f))
                = d ++ Js.string_of_index i ++ "_" ++ b)
  /\ (forall i j fi fj,
        nth_error sorted i = Some fi -> nth_error sorted j = Some fj ->
        ((i < j)%nat <-> date fi < date fj)).
Proof.
  intros Hnd sorted.
  assert (Hs : sorted = Js.sort byDate (fileList (shot w)))
    by apply save_buffer.
  split; [now rewrite save_run|].
  split; [rewrite Hs; apply byDate_Permutation|].
  split; [apply save_trace|].
  split; [intros i f Hi; apply (saveEvents_nth sorted 0 i f Hi)|].
  split; [intros i f _; split;
            [reflexivity | apply prefixedItems_carry_ordinal]|].
  intros i j fi fj Hi Hj.
  apply (sorted_distinct_order date sorted i j fi fj); try assumption.
  - rewrite Hs. apply byDate_ascending.
  - rewrite Hs.
    eapply Permutation_NoDup; [|exact Hnd].
    apply Permutation_map, Permutation_sym, byDate_Permutation.
Qed.

(** A list read at two positions. *)
Lemma nth_error_two_split {A} (l : list A) (a b : nat) (x y : A) :
  (a < b)%nat -> nth_error l a = Some x -> nth_error l b = Some y ->
  exists l1 l2 l3, l = (l1 ++ x :: l2 ++ y :: l3)%list.
Proof.
  intros Hab Ha Hb.
  destruct (nth_error_split l a Ha) as (l1 & r & -> & Hl1).
  rewrite nth_error_app2 in Hb by lia.
  rewrite Hl1 in Hb.
  destruct (b - a)%nat as [|m] eqn:Hm; [lia|].
  cbn [nth_error] in Hb.
  destruct (nth_error_split r m Hb) as (l2 & l3 & -> & _).
  now exists l1, l2, l3.
Qed.

(** An element kept by [filter] comes from the list, between what gave
    the elements kept before it and what gave those kept after it. *)
Lemma filter_split {A} (p : A -> bool) (l : list A) :
  forall x f r,
    filter p l = (x ++ f :: r)%list ->
    exists l1 l2, l = (l1 ++ f :: l2)%list
                  /\ filter p l1 = x /\ filter p l2 = r.
Proof.
  induction l as [|h t IH]; intros x f r H.
  - destruct x; discriminate H.
  - cbn [filter] in H. destruct (p h) eqn:Hh.
    + destruct x as [|x0 x].
      * injection H as -> Hr. exists [], t. cbn [filter app]. auto.
      * injection H as -> Ht.
        destruct (IH x f r Ht) as (l1 & l2 & -> & H1 & H2).
        exists (x0 :: l1), l2. cbn [filter app]. rewrite Hh, H1. auto.
    + destruct (IH x f r H) as (l1 & l2 & -> & H1 & H2).
      exists (h :: l1), l2. cbn [filter app]. rewrite Hh. auto.
Qed.

(** Two elements kept by [filter] stand in the list in the order in which
    they are kept. *)
Lemma filter_order_positions {A} (p : A -> bool) (l x y z : list A)
    (f g : A) :
  filter p l = (x ++ f :: y ++ g :: z)%list ->
  exists i j, (i < j)%nat /\ nth_error l i = Some f /\ nth_error l j = Some g.
Proof.
  intros H.
  destruct (filter_split p l x f _ H) as (l1 & r & -> & _ & Hr).
  destruct (filter_split p r y g z Hr) as (l2 & l3 & -> & _ & _).
  exists (List.length l1), (List.length l1 + S (List.length l2))%nat.
  split; [lia|]. split.
  - rewrite nth_error_app2 by lia. now rewrite Nat.sub_diag.
  - rewrite nth_error_app2 by lia.
    replace (List.length l1 + S (List.length l2) - List.length l1)%nat
      with (S (List.length l2)) by lia.
    cbn [nth_error]. rewrite nth_error_app2 by lia.
    now rewrite Nat.sub_diag.
Qed.

(** Of two frames of one capture time, the one pushed first stands first
    after the sort. *)
Lemma byDate_ties_in_order (l : list Frame) (a b : nat) (fa fb : Frame) :
  (a < b)%nat ->
  nth_error l a = Some fa -> nth_error l b = Some fb ->
  date fa = date fb ->
  exists i j, (i < j)%nat
              /\ nth_error (Js.sort byDate l) i = Some fa
              /\ nth_error (Js.sort byDate l) j = Some fb.
Proof.
  intros Hab Ha Hb Hd.
  destruct (nth_error_two_split l a b fa fb Hab Ha Hb)
    as (l1 & l2 & l3 & Hl).
  pose proof (byDate_stable (date fa) l) as Hst.
  rewrite Hl in Hst at 2.
  rewrite filter_app in Hst. cbn [filter] in Hst.
  rewrite filter_app in Hst. cbn [filter] in Hst.
  unfold hasDate in Hst at 3 5.
  rewrite <- Hd, Z.eqb_refl in Hst.
  exact (filter_order_positions _ _ _ _ _ _ _ Hst).
Qed.

(** C10. Frames with equal capture times keep, in the order of writing
    and hence in their ordinals, the order in which they were pushed on
    the buffer. The frame at position [i] of the sorted buffer is written
    to the path that carries ordinal [i]: the ordinal, followed by ['_'],
    is put inside the last piece of the frame's path. For every time [d]
    the frames dated [d], read off in increasing ordinal, are those of the
    buffer in insertion order, so of two frames of one capture time the
    one pushed first gets the smaller ordinal; and the order of writing is
    ascending in time. *)
Theorem save_keeps_capture_order_on_ties w :
  let sorted := fileList (shot (snd (save env w))) in
  ascending sorted
  /\ trace (snd (save env w)) = (trace w ++ saveEvents env 0 sorted)%list
  /\ (forall i f, nth_error sorted i = Some f ->
        nth_error (saveEvents env 0 sorted) (2 * i + 1)
        = Some (EvWriteFile (prefixedPath env i (fullPath f)) (buffer f)))
  /\ (forall d,
        filter (hasDate d) sorted = filter (hasDate d) (fileList (shot w)))
  /\ (forall i f, nth_error sorted i = Some f ->
        prefixedPath env i (fullPath f)
        = path_join env (prefixedItems env i (fullPath f))
        /\ exists d b,
             Js.lastItem (Js.split "\" (fullPath f)) = d ++ b
             /\ Js.lastItem (prefixedItems env i (fullPath f))
                = d ++ Js.string_of_index i ++ "_" ++ b)
  /\ (forall a b fa fb,
        (a < b)%nat ->
        nth_error (fileList (shot w)) a = Some fa ->
        nth_error (fileList (shot w)) b = Some fb ->
        date fa = date fb ->
        exists i j,
          (i < j)%nat
          /\ nth_error sorted i = Some fa /\ nth_error sorted j = Some fb).
Proof.
  intros sorted.
  assert (Hs : sorted = Js.sort byDate (fileList (shot w)))
    by apply save_buffer.
  split; [rewrite Hs; apply byDate_ascending|].
  split; [apply save_trace|].
  split; [intros i f Hi; apply (saveEvents_nth sorted 0 i f Hi)|].
  split; [intros d; rewrite Hs; apply byDate_stable|].
  split; [intros i f _; split;
            [reflexivity | apply prefixedItems_carry_ordinal]|].
  intros a b fa fb Hab Ha Hb Hd. rewrite Hs.
  now apply (byDate_ties_in_order (fileList (shot w)) a b fa fb).
Qed.

Lemma shot_eta (s : Screenshot) :
  {| createType := createType s; currentDir := currentDir s;
     fileList := fileList s |} = s.
Proof. now destruct s. Qed.

(** C8, as the code has it. [save] never adds a frame to the buffer nor
    removes one: it sorts the buffer in place by capture time, which
    leaves a buffer already in ascending order as it was. On an empty
    buffer [save] does nothing and writes nothing; a second [save]
    without a [setDir] in between repeats the writes of the first and
    leaves the buffer alone. [setDir] empties the buffer, and no other
    method of the singleton empties a buffer that holds a frame. *)
Theorem save_keeps_frames_setDir_clears w :
  (fileList (shot w) = [] -> save env w = (Normal tt, w))
  /\ Permutation (fileList (shot (snd (save env w)))) (fileList (shot w))
  /\ ascending (fileList (shot (snd (save env w))))
  /\ (ascending (fileList (shot w)) -> shot (snd (save env w)) = shot w)
  /\ (let w1 := snd (save env w) in
      let again := saveEvents env 0 (fileList (shot w1)) in
      trace w1 = (trace w ++ again)%list
      /\ trace (snd (save env w1)) = (trace w1 ++ again)%list
      /\ shot (snd (save env w1)) = shot w1)
  /\ (forall dir, fileList (shot (snd (setDir env dir w))) = [])
  /\ (forall op,
        fileList (shot w) <> [] ->
        fileList (shot (snd (runOp env op w))) = [] ->
        exists dir, op = OpSetDir dir).
Proof.
  split.
  { intros He. rewrite save_run. unfold saved. rewrite He. simpl.
    rewrite app_nil_r. destruct w as [[ct cd fl] u t k]; simpl in *.
    now subst fl. }
  split; [rewrite save_buffer; apply byDate_Permutation|].
  split; [rewrite save_buffer; apply byDate_ascending|].
  split.
  { intros Ha. rewrite save_run. unfold saved. simpl.
    rewrite (byDate_of_ascending _ Ha). apply shot_eta. }
  split.
  { cbv zeta. split; [apply save_trace|].
    rewrite (save_run env (snd (save env w))).
    rewrite save_run. unfold saved. simpl.
    rewrite byDate_idempotent. repeat split. }
  split; [intros dir; reflexivity|].
  intros op Hne Hempty. destruct op as [t| |fileName|dir|].
  - simpl in Hempty. contradiction.
  - unfold runOp in Hempty. rewrite save_buffer in Hempty.
    exfalso. apply Hne. apply Permutation_nil.
    rewrite <- Hempty. apply byDate_Permutation.
  - unfold runOp in Hempty. rewrite screenShot_run in Hempty.
    simpl in Hempty.
    now destruct (fileList (shot w)).
  - now exists dir.
  - simpl in Hempty. contradiction.
Qed.
(** X3. A flush right after [setDir] writes nothing, whatever the buffer held
    before: the frames of the previous case are gone, and the flush leaves
    the world as [setDir] left it. *)
Theorem setDir_then_save_writes_nothing (dir : string) w :
  save env (snd (setDir env dir w)) = (Normal tt, snd (setDir env dir w)).
Proof.
  rewrite save_run. unfold saved. simpl. now rewrite app_nil_r.
Qed.
End FlushTheorems.

(** C8, as stated, fails: [save] sorts the buffer in place. With a clock
    set back between two captures the buffer holds ["a.png"] before
    ["b.png"]; after [save] it holds ["b.png"] first. *)
Lemma save_reorders_buffer :
  let w := twoCaptures clockSetBack in
  fileList (shot (snd (save clockSetBack w))) <> fileList (shot w)
  /\ map fullPath (fileList (shot w))
     = ["/artifacts/images-linux/CreateTypeSpecProject/case_00_01_00/a.png";
        "/artifacts/images-linux/CreateTypeSpecProject/case_00_01_00/b.png"]
  /\ map fullPath (fileList (shot (snd (save clockSetBack w))))
     = ["/artifacts/images-linux/CreateTypeSpecProject/case_00_01_00/b.png";
        "/artifacts/images-linux/CreateTypeSpecProject/case_00_01_00/a.png"].
Proof.
  split; [|split]; [ | reflexivity | reflexivity].
  vm_compute. discriminate.
Qed.

Lemma save_ordinals_follow_timestamps_witness :
  NoDup (map date (fileList (shot (twoCaptures linuxAgent))))
  /\ trace (snd (save linuxAgent (twoCaptures linuxAgent)))
     = (trace (twoCaptures linuxAgent)
        ++ [EvMkdirParent
              "/artifacts/images-linux/CreateTypeSpecProject/case_00_00_00/0_a.png";
            EvWriteFile
              "/artifacts/images-linux/CreateTypeSpecProject/case_00_00_00/0_a.png"
              [];
            EvMkdirParent
              "/artifacts/images-linux/CreateTypeSpecProject/case_00_00_00/1_b.png";
            EvWriteFile
              "/artifacts/images-linux/CreateTypeSpecProject/case_00_00_00/1_b.png"
              []])%list.
Proof.
  assert (Hnd : NoDup (map date (fileList (shot (twoCaptures linuxAgent))))).
  { simpl. repeat constructor; simpl; intuition discriminate. }
  split; [exact Hnd|].
  destruct (save_ordinals_follow_timestamps linuxAgent
              (twoCaptures linuxAgent) Hnd) as (_ & _ & Htrace & _).
  exact Htrace.
Defined.

Lemma save_keeps_capture_order_on_ties_witness :
  let w := threeCaptures clockStalls in
  let sorted := fileList (shot (snd (save clockStalls w))) in
  let dir := "/artifacts/images-linux/CreateTypeSpecProject/case_00_00_05/" in
  map (fun f => (fullPath f, date f)) (fileList (shot w))
  = [(dir ++ "a.png", 5000); (dir ++ "b.png", 1000); (dir ++ "c.png", 1000)]
  /\ nth_error (saveEvents clockStalls 0 sorted) 1
     = Some (EvWriteFile (dir ++ "0_b.png") [])
  /\ nth_error (saveEvents clockStalls 0 sorted) 3
     = Some (EvWriteFile (dir ++ "1_c.png") [])
  /\ nth_error (saveEvents clockStalls 0 sorted) 5
     = Some (EvWriteFile (dir ++ "2_a.png") [])
  /\ exists i j,
       (i < j)%nat
       /\ nth_error sorted i = nth_error (fileList (shot w)) 1
       /\ nth_error sorted j = nth_error (fileList (shot w)) 2.
Proof.
  intros w sorted dir.
  destruct (save_keeps_capture_order_on_ties clockStalls w)
    as (_ & _ & Hwrite & _ & _ & Hties).
  split; [reflexivity|].
  split; [exact (Hwrite 0%nat (mkFrame (dir ++ "b.png") [] 1000) eq_refl)|].
  split; [exact (Hwrite 1%nat (mkFrame (dir ++ "c.png") [] 1000) eq_refl)|].
  split; [exact (Hwrite 2%nat (mkFrame (dir ++ "a.png") [] 5000) eq_refl)|].
  exact (Hties 1%nat 2%nat (mkFrame (dir ++ "b.png") [] 1000)
           (mkFrame (dir ++ "c.png") [] 1000)
           ltac:(lia) eq_refl eq_refl eq_refl).
Defined.

Lemma save_keeps_frames_setDir_clears_witness :
  ascending (fileList (shot (twoCaptures linuxAgent)))
  /\ shot (snd (save linuxAgent (twoCaptures linuxAgent)))
     = shot (twoCaptures linuxAgent)
  /\ fileList (shot (snd (setDir linuxAgent "next" (twoCaptures linuxAgent))))
     = [].
Proof.
  assert (Ha : ascending (fileList (shot (twoCaptures linuxAgent)))).
  { simpl. repeat constructor; simpl; discriminate. }
  split; [exact Ha|].
  destruct (save_keeps_frames_setDir_clears linuxAgent
              (twoCaptures linuxAgent))
    as (_ & _ & _ & Hsame & _ & Hclear & _).
  split; [exact (Hsame Ha) | exact (Hclear "next")].
Defined.

(* ===================================================================== *)
(** * The case directory *)
(* ===================================================================== *)

Section MomentFacts.

Lemma digit_inj (a b : Z) :
  0 <= a < 10 -> 0 <= b < 10 -> Moment.digit a = Moment.digit b -> a = b.
Proof.
  intros Ha Hb H. unfold Moment.digit in H.
  apply (f_equal nat_of_ascii) in H.
  rewrite !nat_ascii_embedding in H by lia. lia.
Qed.

Lemma pad2_inj (a b : Z) :
  0 <= a < 100 -> 0 <= b < 100 -> Moment.pad2 a = Moment.pad2 b -> a = b.
Proof.
  intros Ha Hb H. unfold Moment.pad2 in H. injection H as H1 H0.
  apply digit_inj in H1;
    [|split; [apply Z.div_pos; lia | apply Z.div_lt_upper_bound; lia]
     |split; [apply Z.div_pos; lia | apply Z.div_lt_upper_bound; lia]].
  apply digit_inj in H0; [|apply Z.mod_pos_bound; lia
                          |apply Z.mod_pos_bound; lia].
  rewrite (Z.div_mod a 10), (Z.div_mod b 10) by lia. lia.
Qed.

Lemma secondOfDay_range (t : Z) : 0 <= Moment.secondOfDay t < 86400.
Proof. unfold Moment.secondOfDay. apply Z.mod_pos_bound. lia. Qed.

Lemma secondOfDay_fields (t : Z) :
  Moment.secondOfDay t
  = 3600 * Moment.hours t + 60 * Moment.minutes t + Moment.seconds t
  /\ 0 <= Moment.hours t < 24
  /\ 0 <= Moment.minutes t < 60
  /\ 0 <= Moment.seconds t < 60.
Proof.
  unfold Moment.hours, Moment.minutes, Moment.seconds.
  pose proof (secondOfDay_range t) as Hr.
  set (s := Moment.secondOfDay t) in *.
  pose proof (Z.div_mod s 60 ltac:(lia)) as H1.
  pose proof (Z.div_mod (s / 60) 60 ltac:(lia)) as H2.
  rewrite Z.div_div in H2 by lia. change (60 * 60) with 3600 in H2.
  pose proof (Z.mod_pos_bound s 60 ltac:(lia)).
  pose proof (Z.mod_pos_bound (s / 60) 60 ltac:(lia)).
  assert (0 <= s / 3600 < 24).
  { split; [apply Z.div_pos; lia | apply Z.div_lt_upper_bound; lia]. }
  lia.
Qed.

Lemma format_length (t : Z) :
  String.length (Moment.format_HH_mm_ss t) = 9%nat.
Proof. reflexivity. Qed.

(** The format shows the second of the local day and nothing else. *)
Lemma format_eq_iff (t1 t2 : Z) :
  Moment.format_HH_mm_ss t1 = Moment.format_HH_mm_ss t2
  <-> Moment.secondOfDay t1 = Moment.secondOfDay t2.
Proof.
  split.
  - intros H.
    destruct (secondOfDay_fields t1) as (E1 & Hh1 & Hm1 & Hs1).
    destruct (secondOfDay_fields t2) as (E2 & Hh2 & Hm2 & Hs2).
    unfold Moment.format_HH_mm_ss in H. simpl in H.
    injection H as Hh1' Hh0' Hm1' Hm0' Hs1' Hs0'.
    assert (Hh : Moment.hours t1 = Moment.hours t2).
    { apply pad2_inj; [lia | lia |]. unfold Moment.pad2. congruence. }
    assert (Hm : Moment.minutes t1 = Moment.minutes t2).
    { apply pad2_inj; [lia | lia |]. unfold Moment.pad2. congruence. }
    assert (Hs : Moment.seconds t1 = Moment.seconds t2).
    { apply pad2_inj; [lia | lia |]. unfold Moment.pad2. congruence. }
    lia.
  - intros H. unfold Moment.format_HH_mm_ss, Moment.hours, Moment.minutes,
      Moment.seconds. now rewrite H.
Qed.
End MomentFacts.

Section SetDirTheorems.
Context {U : Type}.
Implicit Types w : World U.

Lemma setDir_currentDir (env : Env) (dir : string) w :
  currentDir (shot (snd (setDir env dir w)))
  = dir ++ Moment.format_HH_mm_ss (momentAt env w).
Proof. reflexivity. Qed.

(** C6, as the code has it. The directory name that [setDir] gives a
    case is the case name followed by the local time of day to the
    second ([_HH_mm_ss]). Two runs get the same name exactly when they
    have the same case name and start in the same second of the day: runs
    with different case names never share a name, and runs of one case
    name share it when they start within the same second, or at the same
    time of day on different days. *)
Theorem setDir_names_equal_iff (env1 env2 : Env) (dir1 dir2 : string)
    w1 w2 :
  currentDir (shot (snd (setDir env1 dir1 w1)))
    = dir1 ++ Moment.format_HH_mm_ss (momentAt env1 w1)
  /\ (currentDir (shot (snd (setDir env1 dir1 w1)))
      = currentDir (shot (snd (setDir env2 dir2 w2)))
      <-> dir1 = dir2
          /\ Moment.secondOfDay (momentAt env1 w1)
             = Moment.secondOfDay (momentAt env2 w2)).
Proof.
  split; [apply setDir_currentDir|].
  rewrite !setDir_currentDir. split.
  - intros H. apply string_app_inj_suffix in H.
    + destruct H as [Hd Hf]. split; [exact Hd | now apply format_eq_iff].
    + now rewrite !format_length.
  - intros [-> Hs]. f_equal. now apply format_eq_iff.
Qed.
End SetDirTheorems.

Lemma setDir_names_equal_iff_witness :
  currentDir (shot (snd (setDir linuxAgent "caseA" freshWorld)))
  <> currentDir (shot (snd (setDir linuxAgent "caseB" freshWorld))).
Proof.
  intros H.
  destruct (setDir_names_equal_iff linuxAgent linuxAgent "caseA" "caseB"
              freshWorld freshWorld) as (_ & Hiff).
  destruct (proj1 Hiff H) as [Hname _]. discriminate Hname.
Defined.

(** C6, as stated, fails: two runs of the case ["case"], the second
    started half a second after the first, get the same directory name. *)
Lemma setDir_same_second_collides :
  let first := snd (setDir halfSecondClock "case" freshWorld) in
  let second := snd (setDir halfSecondClock "case" first) in
  momentAt halfSecondClock freshWorld <> momentAt halfSecondClock first
  /\ currentDir (shot first) = currentDir (shot second)
  /\ currentDir (shot first) = "case_00_00_00".
Proof.
  split; [|split]; [ | reflexivity | reflexivity].
  vm_compute. discriminate.
Qed.

(* ===================================================================== *)
(** * The launch fixture *)
(* ===================================================================== *)

Section LaunchTheorems.
Context {U : Type} (env : Env).
Implicit Types w : World U.

(** C5, as the code has it. [launch] first makes the temporary
    directory, then starts the host, then waits for its first window, and
    only then writes the user-settings document, as its last effect
    before it returns the handle. When the host or its window fails, the
    error is passed on and no settings are written. *)
Theorem launch_writes_settings_last (logPath : string)
    (options : LaunchOptions) w :
  let dir := tempDirAt env w in
  let app := S (tick w) in
  let w' := snd (launch env logPath options w) in
  (forall ctx, fst (launch env logPath options w) = Normal ctx ->
     ctx = {| page := app; extensionDir := path_join env [dir; "extensions"] |}
     /\ exists electronOptions,
          trace w'
          = (trace w
             ++ [EvMkdtemp dir;
                 EvLaunch app electronOptions;
                 EvFirstWindow app;
                 EvWriteText
                   (path_join env [dir; "user-data"; "User"; "settings.json"])
                   userSettingsJson])%list)
  /\ (forall e, fst (launch env logPath options w) = Throw e ->
        exists events,
          trace w' = (trace w ++ events)%list
          /\ existsb isSettingsWrite events = false).
Proof.
  intros dir app w'. subst w'.
  unfold launch, mkdtemp, electronLaunch, firstWindow, bind, nextTick,
    emitEvent, ret, throw. simpl.
  destruct (launchError env (S (tick w))) as [e1|]; simpl.
  - split; [intros ctx H; discriminate|].
    intros e _. eexists. split; [rewrite <- app_assoc; reflexivity|].
    reflexivity.
  - destruct (windowError env (S (S (tick w)))) as [e2|]; simpl.
    + split; [intros ctx H; discriminate|].
      intros e _. eexists. split; [rewrite <- !app_assoc; reflexivity|].
      reflexivity.
    + split; [|intros e H; discriminate].
      intros ctx H. injection H as <-. split; [reflexivity|].
      eexists. rewrite <- !app_assoc. reflexivity.
Qed.

(** The loop over [teardowns] adds nothing to the run of the body: the
    array is empty. *)
Lemma launchFixture_is_body {A} (logPath : string)
    (use : (LaunchOptions -> M U Context) -> M U A) w :
  launchFixture env logPath use w = use (launch env logPath) w.
Proof.
  unfold launchFixture. destruct (use (launch env logPath) w) as [r w1].
  reflexivity.
Qed.
(** X4. When the host cannot be started, or its first window cannot be
    obtained, [launch] fails with the driver's error and returns no
    handle. *)
Theorem launch_failure_returns_no_handle (logPath : string)
    (options : LaunchOptions) (e : string) w :
  launchError env (S (tick w)) = Some e
  \/ (launchError env (S (tick w)) = None
      /\ windowError env (S (S (tick w))) = Some e) ->
  fst (launch env logPath options w) = Throw e.
Proof.
  unfold launch, mkdtemp, electronLaunch, firstWindow, bind, nextTick,
    emitEvent, ret, throw. simpl.
  intros [H|[H1 H2]].
  - now rewrite H.
  - rewrite H1. simpl. now rewrite H2.
Qed.
End LaunchTheorems.

Lemma launch_writes_settings_last_witness :
  fst (launch linuxAgent "/repo/tests-logs-t-1.txt"
         {| extensionPath := None; workspacePath := "test"; trace' := None |} freshWorld)
  = Normal {| page := 1;
              extensionDir := "/tmp/typespec-automationAbC123/extensions" |}
  /\ occursBefore isLaunch isSettingsWrite
       (trace (snd (launch linuxAgent "/repo/tests-logs-t-1.txt"
                      {| extensionPath := None; workspacePath := "test"; trace' := None |}
                      freshWorld)))
     = true.
Proof.
  assert (H : fst (launch linuxAgent "/repo/tests-logs-t-1.txt"
                     {| extensionPath := None; workspacePath := "test"; trace' := None |}
                     freshWorld)
              = Normal {| page := 1;
                          extensionDir :=
                            "/tmp/typespec-automationAbC123/extensions" |})
    by reflexivity.
  split; [exact H|].
  destruct (launch_writes_settings_last linuxAgent "/repo/tests-logs-t-1.txt"
              {| extensionPath := None; workspacePath := "test"; trace' := None |} freshWorld)
    as (Hok & _).
  destruct (Hok _ H) as (_ & electronOptions & Htrace).
  rewrite Htrace. reflexivity.
Defined.

Lemma launch_failure_returns_no_handle_witness :
  launchError hostDoesNotStart (S (tick freshWorld))
  = Some "electron.launch: Process failed to launch!"
  /\ fst (launch hostDoesNotStart "/repo/tests-logs-t-1.txt"
            {| extensionPath := None; workspacePath := "test"; trace' := None |} freshWorld)
     = Throw "electron.launch: Process failed to launch!".
Proof.
  assert (H : launchError hostDoesNotStart (S (tick freshWorld))
              = Some "electron.launch: Process failed to launch!")
    by reflexivity.
  split; [exact H|].
  apply (launch_failure_returns_no_handle hostDoesNotStart
           "/repo/tests-logs-t-1.txt"
           {| extensionPath := None; workspacePath := "test"; trace' := None |}
           "electron.launch: Process failed to launch!" freshWorld).
  left. exact H.
Defined.

(** C5, as stated, fails: in the run of [launch] on the Linux agent the
    settings document is written after the host was started and its first
    window obtained, not before. *)
Lemma launch_starts_host_before_settings :
  let t := trace (snd (launch linuxAgent "/repo/tests-logs-t-1.txt"
                         {| extensionPath := None; workspacePath := "test"; trace' := None |}
                         freshWorld)) in
  occursBefore isSettingsWrite isLaunch t = false
  /\ occursBefore isSettingsWrite isFirstWindow t = false
  /\ occursBefore isLaunch isSettingsWrite t = true
  /\ occursBefore isFirstWindow isSettingsWrite t = true
  /\ map isLaunch t = [false; true; false; false]
  /\ map isSettingsWrite t = [false; false; false; true].
Proof. repeat split. Qed.

(** C9. The code does not do what the claim says: run around a body that
    launches the host once, the fixture hands back the handle and ends
    with the host started and its window open, and no event of the whole
    run closes it; the fixture's teardown loop runs over an empty array. *)
Theorem launchFixture_leaves_host_running :
  let run := launchFixture linuxAgent "/repo/tests-logs-t-1.txt" launchOnce
               freshWorld in
  fst run = Normal {| page := 1;
                      extensionDir :=
                        "/tmp/typespec-automationAbC123/extensions" |}
  /\ map isLaunch (trace (snd run)) = [false; true; false; false]
  /\ existsb isClose (trace (snd run)) = false
  /\ run = launchOnce (launch linuxAgent "/repo/tests-logs-t-1.txt")
             freshWorld.
Proof.
  cbv zeta. rewrite launchFixture_is_body. repeat split.
Qed.

(* ===================================================================== *)
(** * The texts that the steps accept *)
(* ===================================================================== *)

Section TextFacts.
Implicit Types a b lit s r : string.

Lemma string_app_nil_r' a : a ++ "" = a.
Proof. induction a as [|x a IH]; simpl; [reflexivity | now rewrite IH]. Qed.

Lemma slice_app a b : JsText.slice (a ++ b) (String.length a) = b.
Proof.
  unfold JsText.slice. rewrite string_length_app.
  replace (String.length a + String.length b - String.length a)%nat
    with (String.length b) by lia.
  apply substring_app_right.
Qed.

Lemma slice_app_past a b : forall k,
  JsText.slice (a ++ b) (String.length a + k) = JsText.slice b k.
Proof.
  unfold JsText.slice. induction a as [|x a IH]; intros k; [reflexivity|].
  cbn [append String.length Nat.add String.substring Nat.sub]. apply IH.
Qed.

Lemma startsWith_app lit r : JsText.startsWith lit (lit ++ r) = true.
Proof.
  induction lit as [|x lit IH]; simpl; [reflexivity|].
  now rewrite Ascii.eqb_refl, IH.
Qed.

Lemma startsWith_split lit : forall s,
  JsText.startsWith lit s = true ->
  s = lit ++ JsText.slice s (String.length lit).
Proof.
  induction lit as [|x lit IH]; intros s H.
  - unfold JsText.slice. simpl. rewrite Nat.sub_0_r.
    now rewrite substring_whole.
  - destruct s as [|y s]; [discriminate|]. simpl in H.
    apply andb_prop in H. destruct H as [Hxy H].
    apply Ascii.eqb_eq in Hxy. subst y.
    rewrite (IH s H) at 1. reflexivity.
Qed.

Lemma startsWith_other_first (x y : ascii) lit s :
  x <> y -> JsText.startsWith (String x lit) (String y s) = false.
Proof.
  intros H. simpl. destruct (Ascii.eqb_spec x y); [contradiction|reflexivity].
Qed.

Lemma endsWith_app lit r : JsText.endsWith lit (r ++ lit) = true.
Proof.
  unfold JsText.endsWith. rewrite string_length_app.
  replace (String.length r + String.length lit - String.length lit)%nat
    with (String.length r) by lia.
  rewrite slice_app, String.eqb_refl.
  destruct (Nat.leb_spec (String.length lit)
              (String.length r + String.length lit)); [reflexivity | lia].
Qed.

Lemma endsWith_split lit s :
  JsText.endsWith lit s = true ->
  s = String.substring 0 (String.length s - String.length lit) s ++ lit.
Proof.
  unfold JsText.endsWith, JsText.slice. intros H.
  apply andb_prop in H. destruct H as [Hlen Heq].
  apply Nat.leb_le in Hlen. apply String.eqb_eq in Heq.
  remember (String.length s - String.length lit)%nat as n eqn:En.
  rewrite <- Heq. symmetry. apply substring_cut. lia.
Qed.

(** Whether a string ends with [lit] shows in its last [lit.length]
    characters. *)
Lemma endsWith_app_long lit a b :
  (String.length lit <= String.length b)%nat ->
  JsText.endsWith lit (a ++ b) = JsText.endsWith lit b.
Proof.
  intros H. unfold JsText.endsWith. rewrite string_length_app.
  replace (String.length a + String.length b - String.length lit)%nat
    with (String.length a + (String.length b - String.length lit))%nat by lia.
  rewrite slice_app_past.
  destruct (Nat.leb_spec (String.length lit) (String.length b)); [|lia].
  destruct (Nat.leb_spec (String.length lit)
              (String.length a + String.length b)); [reflexivity | lia].
Qed.

Lemma removePrefix_app lit r : JsText.removePrefix lit (lit ++ r) = r.
Proof.
  unfold JsText.removePrefix. now rewrite startsWith_app, slice_app.
Qed.

Lemma removeSuffix_app lit r : JsText.removeSuffix lit (r ++ lit) = r.
Proof.
  unfold JsText.removeSuffix. rewrite endsWith_app, string_length_app.
  replace (String.length r + String.length lit - String.length lit)%nat
    with (String.length r) by lia.
  apply substring_app_left.
Qed.

Lemma removeSuffix_none lit s :
  JsText.endsWith lit s = false -> JsText.removeSuffix lit s = s.
Proof. unfold JsText.removeSuffix. now intros ->. Qed.

Lemma lastChar_app a b :
  Js.nonEmpty b = true -> NodePath.lastChar (a ++ b) = NodePath.lastChar b.
Proof.
  intros Hb. induction a as [|x a IH]; [reflexivity|].
  cbn [append NodePath.lastChar]. rewrite IH.
  destruct (a ++ b) eqn:E; [|reflexivity].
  destruct a; [simpl in E; subst b; discriminate | discriminate].
Qed.

Lemma endsWith_lastChar lit s :
  Js.nonEmpty lit = true -> JsText.endsWith lit s = true ->
  NodePath.lastChar s = NodePath.lastChar lit.
Proof.
  intros Hl H. rewrite (endsWith_split lit s H). now apply lastChar_app.
Qed.
End TextFacts.

Section AcceptedTexts.

(** X5. Which texts of the title box the input steps take for the prompt
    [desc], for a prompt that does not begin with ['0'] nor end with ['K']
    (as the three prompts of the steps): the prompt itself, possibly after
    ["0 Results0 Selected"], possibly before ["OK"], and no other text; in
    particular not a missing or empty text, nor one with the noise
    twice. *)
Theorem promptMatches_iff (desc : string) (raw : option string)
    (c z : ascii) :
  NodePath.firstChar desc = Some c -> c <> "0"%char ->
  NodePath.lastChar desc = Some z -> z <> "K"%char ->
  (promptMatches desc raw = true
   <-> exists t, raw = Some t
       /\ (t = desc
           \/ t = "0 Results0 Selected" ++ desc
           \/ t = desc ++ "OK"
           \/ t = "0 Results0 Selected" ++ desc ++ "OK")).
Proof.
  intros Hc Hc0 Hz HzK.
  assert (Hne : Js.nonEmpty desc = true)
    by (destruct desc; [discriminate | reflexivity]).
  assert (Hstart : forall x,
            JsText.startsWith "0 Results0 Selected" (desc ++ x) = false).
  { intros x. destruct desc as [|d0 d]; [discriminate|].
    injection Hc as ->. cbn [append]. apply startsWith_other_first.
    congruence. }
  assert (Hend : forall x, JsText.endsWith "OK" (x ++ desc) = false).
  { intros x. destruct (JsText.endsWith "OK" (x ++ desc)) eqn:E; [|reflexivity].
    apply endsWith_lastChar in E; [|reflexivity].
    rewrite lastChar_app, Hz in E by assumption. simpl in E. congruence. }
  split.
  - intros H. destruct raw as [t|]; [|discriminate].
    unfold promptMatches, promptText in H.
    destruct (Js.nonEmpty t) eqn:Ht; [|discriminate].
    apply String.eqb_eq in H. exists t. split; [reflexivity|].
    unfold JsText.removePrefix in H.
    destruct (JsText.startsWith "0 Results0 Selected" t) eqn:Hp.
    + pose proof (startsWith_split _ _ Hp) as Et.
      remember (JsText.slice t (String.length "0 Results0 Selected")) as r.
      unfold JsText.removeSuffix in H.
      destruct (JsText.endsWith "OK" r) eqn:Ho.
      * pose proof (endsWith_split _ _ Ho) as Er. rewrite H in Er.
        right; right; right. now rewrite Et, Er.
      * right; left. now rewrite Et, H.
    + unfold JsText.removeSuffix in H.
      destruct (JsText.endsWith "OK" t) eqn:Ho.
      * pose proof (endsWith_split _ _ Ho) as Er. rewrite H in Er.
        right; right; left. exact Er.
      * left. exact H.
  - intros (t & -> & [-> | [-> | [-> | ->]]]); unfold promptMatches, promptText.
    + rewrite Hne. unfold JsText.removePrefix.
      rewrite <- (string_app_nil_r' desc) at 1. rewrite Hstart.
      rewrite removeSuffix_none by apply (Hend "").
      apply String.eqb_refl.
    + assert (Js.nonEmpty ("0 Results0 Selected" ++ desc) = true) as ->
        by reflexivity.
      rewrite removePrefix_app.
      rewrite removeSuffix_none by apply (Hend "").
      apply String.eqb_refl.
    + assert (Js.nonEmpty (desc ++ "OK") = true) as ->
        by (destruct desc; reflexivity).
      unfold JsText.removePrefix. rewrite Hstart, removeSuffix_app.
      apply String.eqb_refl.
    + assert (Js.nonEmpty ("0 Results0 Selected" ++ desc ++ "OK") = true)
        as -> by reflexivity.
      rewrite removePrefix_app, removeSuffix_app.
      apply String.eqb_refl.
Qed.

(** X6. What [selectEmitters] checks of an emitter's checkbox. Without a
    link of the emitter's name the check fails. The first [name.length]
    characters of the text are cut off and never compared with the name.
    For a description that none of the removed suffixes ends, a text made
    of any [name.length] characters, the description, and nothing or one of
    ["Azure"], ["Settings"], ["similar commands"] passes the check. *)
Theorem emitterCheck_spec (e : Emitter) (text : option string) :
  emitterCheck e 0 text = false
  /\ (forall n p rest,
        String.length p = String.length (name e) ->
        emitterCheck e n (Some (p ++ rest))
        = emitterCheck e n (Some (name e ++ rest)))
  /\ (plainDescription (description e) = true ->
      forall n p noise,
        (0 < n)%nat ->
        String.length p = String.length (name e) ->
        In noise emitterNoise ->
        emitterCheck e n (Some (p ++ description e ++ noise)) = true).
Proof.
  split; [reflexivity|]. split.
  - intros n p rest Hp. unfold emitterCheck, nameDescription.
    assert (JsText.slice (p ++ rest) (String.length (name e)) = rest) as ->
      by (rewrite <- Hp; apply slice_app).
    now rewrite slice_app.
  - intros Hplain n p noise Hn Hp Hnoise.
    unfold plainDescription in Hplain.
    apply andb_prop in Hplain. destruct Hplain as [Hplain Hc].
    apply andb_prop in Hplain. destruct Hplain as [Hplain Hs].
    apply andb_prop in Hplain. destruct Hplain as [Hne Ha].
    apply negb_true_iff in Ha, Hs, Hc.
    unfold emitterCheck, nameDescription.
    destruct (Nat.ltb_spec 0 n) as [_|]; [|lia]. cbn [negb].
    assert (JsText.slice (p ++ description e ++ noise)
              (String.length (name e)) = description e ++ noise) as ->
      by (rewrite <- Hp; apply slice_app).
    assert (Js.nonEmpty (description e ++ noise) = true) as ->
      by (destruct (description e); [discriminate | reflexivity]).
    assert (JsText.removeSuffix "similar commands"
              (JsText.removeSuffix "Settings"
                 (JsText.removeSuffix "Azure" (description e ++ noise)))
            = description e) as ->; [|apply String.eqb_refl].
    destruct Hnoise as [<- | [<- | [<- | [<- | []]]]].
    + rewrite string_app_nil_r'.
      rewrite (removeSuffix_none "Azure") by assumption.
      rewrite (removeSuffix_none "Settings") by assumption.
      now rewrite (removeSuffix_none "similar commands").
    + rewrite removeSuffix_app.
      rewrite (removeSuffix_none "Settings") by assumption.
      now rewrite (removeSuffix_none "similar commands").
    + rewrite (removeSuffix_none "Azure")
        by (rewrite endsWith_app_long; [reflexivity | simpl; lia]).
      rewrite removeSuffix_app.
      now rewrite (removeSuffix_none "similar commands").
    + rewrite (removeSuffix_none "Azure")
        by (rewrite endsWith_app_long; [reflexivity | simpl; lia]).
      rewrite (removeSuffix_none "Settings")
        by (rewrite endsWith_app_long; [reflexivity | simpl; lia]).
      now rewrite removeSuffix_app.
Qed.
End AcceptedTexts.

Lemma promptMatches_iff_witness :
  promptMatches projectNamePrompt
    (Some ("0 Results0 Selected" ++ projectNamePrompt ++ "OK")) = true
  /\ promptMatches serviceNameSpacePrompt (Some serviceNameSpacePrompt) = true
  /\ promptMatches armResourceProviderPrompt
       (Some (armResourceProviderPrompt ++ "OK")) = true.
Proof.
  split; [|split].
  - apply (proj2 (promptMatches_iff projectNamePrompt _ "P" ")"
                    eq_refl ltac:(discriminate) eq_refl ltac:(discriminate))).
    eexists. split; [reflexivity|]. right; right; right. reflexivity.
  - apply (proj2 (promptMatches_iff serviceNameSpacePrompt _ "P" ")"
                    eq_refl ltac:(discriminate) eq_refl ltac:(discriminate))).
    eexists. split; [reflexivity|]. left. reflexivity.
  - apply (proj2 (promptMatches_iff armResourceProviderPrompt _ "P" ")"
                    eq_refl ltac:(discriminate) eq_refl ltac:(discriminate))).
    eexists. split; [reflexivity|]. right; right; left. reflexivity.
Defined.

Lemma emitterCheck_spec_witness :
  forallb (fun e => plainDescription (description e)) emittersConfig = true
  /\ emitterCheck (mkEmitter "Java client" "@typespec/http-client-java") 1
       (Some ("Java client" ++ "@typespec/http-client-java" ++ "Azure"))
     = true
  /\ emitterCheck (mkEmitter "Java client" "@typespec/http-client-java") 1
       (Some ("XXXXXXXXXXX" ++ "@typespec/http-client-java" ++ "Settings"))
     = true.
Proof.
  split; [reflexivity|].
  destruct (emitterCheck_spec
              (mkEmitter "Java client" "@typespec/http-client-java") None)
    as (_ & _ & Hpass).
  split.
  - apply (Hpass eq_refl 1%nat "Java client" "Azure");
      [lia | reflexivity | simpl; auto].
  - apply (Hpass eq_refl 1%nat "XXXXXXXXXXX" "Settings");
      [lia | reflexivity | simpl; auto].
Defined.

(* ===================================================================== *)
(** * The steps *)
(* ===================================================================== *)

Section StepFacts.
Context {U : Type} (env : Env) (page : Driver U).
Implicit Types w : World U.

(** [retry] with a budget that covers the first [true] answer. *)
Lemma retry_met (count : Z) (fn : Predicate U) (errMessage : string)
    (gap : option Z) (k : nat) w :
  Z.of_nat (S k) <= count -> metAfter fn k w ->
  retry env count fn errMessage gap w
  = (Normal tt, polledWorld fn (gapOf gap) (S k) w).
Proof.
  intros Hk [Hfalse Htrue]. unfold retry, bind. fold (gapOf gap).
  rewrite (retryLoop_prefix_false fn (gapOf gap) k count w)
    by (lia || assumption).
  rewrite retryLoop_pos by lia. rewrite attempt_run. simpl.
  rewrite Htrue. unfold ret, polledWorld.
  change (polled fn k (snd (fn (ui w)))) with (polled fn (S k) (ui w)).
  now rewrite polled_last, attemptEvents_last, app_assoc.
Qed.

(** [retry] with a budget of [n] attempts that all fail. *)
Lemma retry_unmet (n : nat) (fn : Predicate U) (errMessage : string)
    (gap : option Z) w :
  unmetFor fn n w ->
  retry env (Z.of_nat n) fn errMessage gap w
  = (Throw errMessage, gaveUp env (polledWorld fn (gapOf gap) n w)).
Proof.
  intros Hfalse.
  apply retry_after_exhaustion. fold (gapOf gap).
  rewrite (retryLoop_prefix_false fn (gapOf gap) n (Z.of_nat n) w)
    by (lia || assumption).
  apply retryLoop_nonpos. lia.
Qed.

(** The shape shared by the input steps. *)
Lemma poll_capture_enter (fn : Predicate U) (errMessage fileName : string) :
  confirmsOnceShown env page
    (retry env 3 fn errMessage None ;; screenShot env fileName ;;
     onPage (keyboard_press page "Enter"))%harness
    fn fileName
  /\ givesUpUnconfirmed env
       (retry env 3 fn errMessage None ;; screenShot env fileName ;;
        onPage (keyboard_press page "Enter"))%harness
       fn errMessage.
Proof.
  split.
  - intros k w Hk Hmet w2. unfold bind at 1.
    rewrite (retry_met 3 fn errMessage None k w) by (lia || assumption).
    unfold bind. rewrite screenShot_run. unfold onPage, afterCall.
    subst w2. simpl.
    destruct (keyboard_press page "Enter" _) as [r u']. reflexivity.
  - intros w Hunmet. unfold bind at 1.
    pose proof (retry_unmet 3 fn errMessage None w Hunmet) as H.
    change (Z.of_nat 3) with 3 in H. now rewrite H.
Qed.

(** X7. Each of the three input steps, once its prompt is shown within
    three polls, captures its screenshot and then presses Enter: the frame
    is pushed after the polls and before the key press, nothing is
    flushed and the host is not closed. *)
Theorem input_steps_confirm_once_shown :
  confirmsOnceShown env page (inputProjectName env page)
    (titleShown page projectNamePrompt) "input_project_name.png"
  /\ confirmsOnceShown env page (inputServiceNameSpace env page)
       (titleShown page serviceNameSpacePrompt) "input_service_namespace.png"
  /\ confirmsOnceShown env page (inputARMResourceProviderName env page)
       (titleShown page armResourceProviderPrompt)
       "input_ARM_Resource_name.png".
Proof.
  split; [|split]; apply poll_capture_enter.
Qed.

(** X8. Each of the three input steps, when its prompt is not shown at
    any of three polls, throws its own message after the error frame was
    captured, the buffer flushed and the host closed; it captures no
    screenshot of its own and never presses Enter: the page saw the three
    polls and nothing else. *)
Theorem input_steps_give_up_unconfirmed :
  givesUpUnconfirmed env (inputProjectName env page)
    (titleShown page projectNamePrompt)
    "Failed to find the project name input box."
  /\ givesUpUnconfirmed env (inputServiceNameSpace env page)
       (titleShown page serviceNameSpacePrompt)
       "Failed to find the service namespace input box."
  /\ givesUpUnconfirmed env (inputARMResourceProviderName env page)
       (titleShown page armResourceProviderPrompt)
       "Failed to find the ARM Resource Provider name input box.".
Proof.
  split; [|split]; apply poll_capture_enter.
Qed.
End StepFacts.

Section StepTheorems.
Context {U : Type} (env : Env) (page : Driver U).
Implicit Types w : World U.

Lemma onPage_run {A} (call : U -> Outcome A * U) w :
  onPage call w = (fst (call (ui w)), afterCall call w).
Proof.
  unfold onPage, afterCall. now destruct (call (ui w)).
Qed.

(** X9. When the template is not listed at any of three polls,
    [selectTemplate] throws the message that names the template, after the
    steps of exhaustion; its description is never polled and its link never
    clicked: the page saw the three polls and nothing else. *)
Theorem selectTemplate_not_listed (templateName templateNameDesctiption : string)
    w :
  unmetFor (templateListed page templateName) 3 w ->
  selectTemplate env page templateName templateNameDesctiption w
  = (Throw (templateNotFound templateName),
     gaveUp env (polledWorld (templateListed page templateName) 2 3 w)).
Proof.
  intros Hunmet. unfold selectTemplate, bind at 1.
  pose proof (retry_unmet env 3 (templateListed page templateName)
                (templateNotFound templateName) None w Hunmet) as H.
  change (Z.of_nat 3) with 3 in H. unfold templateNotFound in H.
  now rewrite H.
Qed.

(** X10. When the template is listed but no option label is found for it,
    the second polled function fails on [arr[0].slice] with a [TypeError],
    and [selectTemplate] throws that error at once: the description is not
    polled again, no error frame is captured, nothing is flushed, the host
    is not closed and the link is not clicked. *)
Theorem selectTemplate_no_option_label
    (templateName templateNameDesctiption : string) (k : nat) (u' : U) w :
  (k < 3)%nat ->
  metAfter (templateListed page templateName) k w ->
  let w1 := polledWorld (templateListed page templateName) 2 (S k) w in
  locator_allTextContents page (Sub (ByRole "option" templateName) "label")
    (ui w1) = (Normal [], u') ->
  selectTemplate env page templateName templateNameDesctiption w
  = (Throw "TypeError: Cannot read properties of undefined (reading 'slice')",
     mkWorld (shot w) u' (trace w1 ++ [EvSleep 2; EvInvoke]) (tick w)).
Proof.
  intros Hk Hmet w1 Hnone.
  assert (Hfault :
            templateDescribed page templateName templateNameDesctiption (ui w1)
            = (Throw
                 "TypeError: Cannot read properties of undefined (reading 'slice')",
               u'))
    by (unfold templateDescribed; now rewrite Hnone).
  unfold selectTemplate, bind at 1.
  rewrite (retry_met env 3 _ _ None k w) by (lia || assumption).
  change (gapOf None) with 2. fold w1.
  unfold bind at 1. unfold retry, bind at 1.
  rewrite retryLoop_pos by lia. rewrite attempt_run, Hfault. reflexivity.
Qed.

(** X11. When the template is listed within three polls and its label then
    reads the expected description within three polls, [selectTemplate]
    clicks the first link of the template and hands on what the click
    answers; it captures no screenshot. The description is compared with
    the label text without its first [templateName.length] characters. *)
Theorem selectTemplate_clicks_once_described
    (templateName templateNameDesctiption : string) (k1 k2 : nat) w :
  (k1 < 3)%nat -> (k2 < 3)%nat ->
  metAfter (templateListed page templateName) k1 w ->
  let w1 := polledWorld (templateListed page templateName) 2 (S k1) w in
  metAfter (templateDescribed page templateName templateNameDesctiption)
    k2 w1 ->
  let w2 :=
    polledWorld (templateDescribed page templateName templateNameDesctiption)
      2 (S k2) w1 in
  let click := locator_click page (First (HasText (Css "a") templateName)) in
  selectTemplate env page templateName templateNameDesctiption w
  = (fst (click (ui w2)), afterCall click w2)
  /\ shot w2 = shot w.
Proof.
  intros Hk1 Hk2 Hmet1 w1 Hmet2 w2 click. split; [|reflexivity].
  unfold selectTemplate, bind at 1.
  rewrite (retry_met env 3 _ _ None k1 w) by (lia || assumption).
  change (gapOf None) with 2. fold w1. unfold bind at 1.
  rewrite (retry_met env 3 _ _ None k2 w1) by (lia || assumption).
  change (gapOf None) with 2. fold w2. apply onPage_run.
Qed.

(** X12. [selectEmitters] does not look at its argument [emitters]: once
    every emitter of [emittersConfig] passes its check within three polls,
    it ticks "Toggle all checkboxes" (never a single emitter), then
    captures ["select_emitter.png"], then presses Enter. When ticking
    fails, the error is handed on and neither the capture nor the key press
    happens. *)
Theorem selectEmitters_toggles_all (emitters : option (list string))
    (k : nat) w :
  (k < 3)%nat ->
  metAfter (emittersShown page) k w ->
  let w1 := polledWorld (emittersShown page) 2 (S k) w in
  let tick_all :=
    locator_check page (ByRole "checkbox" "Toggle all checkboxes") in
  let press := keyboard_press page "Enter" in
  (fst (tick_all (ui w1)) = Normal tt ->
   let w2 := captured env "select_emitter.png" (afterCall tick_all w1) in
   selectEmitters env page emitters w = (fst (press (ui w2)), afterCall press w2))
  /\ (forall e, fst (tick_all (ui w1)) = Throw e ->
      selectEmitters env page emitters w = (Throw e, afterCall tick_all w1)).
Proof.
  intros Hk Hmet w1 tick_all press.
  assert (Hretry : retry env 3 (emittersShown page)
                     "Failed to find the selectEmitter box." None w
                   = (Normal tt, w1))
    by (apply (retry_met env 3 _ _ None k w); [lia | assumption]).
  split.
  - intros Hok w2. unfold selectEmitters, bind at 1. rewrite Hretry.
    unfold bind at 1. rewrite onPage_run. fold tick_all. rewrite Hok.
    unfold bind at 1. rewrite screenShot_run. fold w2. apply onPage_run.
  - intros e He. unfold selectEmitters, bind at 1. rewrite Hretry.
    unfold bind at 1. rewrite onPage_run. fold tick_all. now rewrite He.
Qed.

(** X13. [startWithClick] captures ["start_with_click.png"], clicks the
    explorer label, captures ["open_tabs.png"] and clicks the button, in
    this order: after it the buffer holds the two frames, in this order,
    behind what it held. When the first click fails, its error is handed
    on and the second capture and click do not happen. *)
Theorem startWithClick_two_captures w :
  let click1 :=
    locator_click page (Nth (ByLabel "Explorer (Ctrl+Shift+E) - 1") 2) in
  let click2 :=
    locator_click page (ByRole "button" "Create TypeSpec Project") in
  let w1 := captured env "start_with_click.png" w in
  (fst (click1 (ui w1)) = Normal tt ->
   let w2 := captured env "open_tabs.png" (afterCall click1 w1) in
   startWithClick env page w = (fst (click2 (ui w2)), afterCall click2 w2)
   /\ fileList (shot (snd (startWithClick env page w)))
      = (fileList (shot w)
         ++ [capturedFrame env "start_with_click.png" w;
             capturedFrame env "open_tabs.png" (afterCall click1 w1)])%list)
  /\ (forall e, fst (click1 (ui w1)) = Throw e ->
      startWithClick env page w = (Throw e, afterCall click1 w1)).
Proof.
  intros click1 click2 w1. split.
  - intros Hok w2.
    assert (Hrun : startWithClick env page w
                   = (fst (click2 (ui w2)), afterCall click2 w2)).
    { unfold startWithClick, bind at 1. rewrite screenShot_run. fold w1.
      unfold bind at 1. rewrite onPage_run. fold click1. rewrite Hok.
      unfold bind at 1. rewrite screenShot_run. fold w2. apply onPage_run. }
    split; [exact Hrun|]. rewrite Hrun. simpl. now rewrite <- app_assoc.
  - intros e He. unfold startWithClick, bind at 1. rewrite screenShot_run.
    fold w1. unfold bind at 1. rewrite onPage_run. fold click1.
    now rewrite He.
Qed.
End StepTheorems.

(** ** The steps on the scripted page *)

Lemma input_steps_confirm_once_shown_witness :
  let page :=
    scriptedPage 1 ("0 Results0 Selected" ++ projectNamePrompt ++ "OK") in
  let run := inputProjectName linuxAgent page freshScreen in
  metAfter (titleShown page projectNamePrompt) 1 freshScreen
  /\ fst run = Normal tt
  /\ acts (ui (snd run)) = ["Enter"]
  /\ map fullPath (fileList (shot (snd run)))
     = ["/artifacts/images-linux/CreateTypeSpecProject/input_project_name.png"]
  /\ trace (snd run)
     = [EvSleep 2; EvInvoke; EvSleep 2; EvInvoke; EvSleep 3; EvGrab].
Proof.
  intros page run.
  assert (Hmet : metAfter (titleShown page projectNamePrompt) 1 freshScreen).
  { split; [|reflexivity].
    intros j Hj. destruct j as [|j]; [reflexivity | lia]. }
  split; [exact Hmet|].
  destruct (input_steps_confirm_once_shown linuxAgent page) as (Hstep & _).
  pose proof (Hstep 1%nat freshScreen ltac:(lia) Hmet) as Hrun.
  cbv zeta in Hrun. subst run. rewrite Hrun. repeat split.
Defined.

Lemma input_steps_give_up_unconfirmed_witness :
  let page := scriptedPage 5 serviceNameSpacePrompt in
  let run := inputServiceNameSpace linuxAgent page freshScreen in
  unmetFor (titleShown page serviceNameSpacePrompt) 3 freshScreen
  /\ fst run = Throw "Failed to find the service namespace input box."
  /\ ui (snd run) = mkScreen 3 []
  /\ map fullPath (fileList (shot (snd run)))
     = ["/artifacts/images-linux/CreateTypeSpecProject/error.png"].
Proof.
  intros page run.
  assert (Hunmet :
            unmetFor (titleShown page serviceNameSpacePrompt) 3 freshScreen).
  { intros j Hj.
    destruct j as [|[|[|j]]]; [reflexivity | reflexivity | reflexivity | lia]. }
  split; [exact Hunmet|].
  destruct (input_steps_give_up_unconfirmed linuxAgent page)
    as (_ & Hstep & _).
  subst run. rewrite (Hstep freshScreen Hunmet). repeat split.
Defined.

Lemma selectTemplate_not_listed_witness :
  let page := scriptedPage 5 "Generic Rest APICreate a project" in
  let run := selectTemplate linuxAgent page "Generic Rest API"
               "Create a project" freshScreen in
  unmetFor (templateListed page "Generic Rest API") 3 freshScreen
  /\ fst run = Throw (templateNotFound "Generic Rest API")
  /\ ui (snd run) = mkScreen 3 [].
Proof.
  intros page run.
  assert (Hunmet :
            unmetFor (templateListed page "Generic Rest API") 3 freshScreen).
  { intros j Hj.
    destruct j as [|[|[|j]]]; [reflexivity | reflexivity | reflexivity | lia]. }
  split; [exact Hunmet|].
  subst run.
  rewrite (selectTemplate_not_listed linuxAgent page "Generic Rest API"
             "Create a project" freshScreen Hunmet).
  repeat split.
Defined.

Lemma selectTemplate_no_option_label_witness :
  let run := selectTemplate linuxAgent pageWithoutLabels "Generic Rest API"
               "Create a project" freshScreen in
  metAfter (templateListed pageWithoutLabels "Generic Rest API") 0 freshScreen
  /\ fst run
     = Throw "TypeError: Cannot read properties of undefined (reading 'slice')"
  /\ trace (snd run) = [EvSleep 2; EvInvoke; EvSleep 2; EvInvoke]
  /\ shot (snd run) = newScreenshot
  /\ ui (snd run) = mkScreen 2 [].
Proof.
  intros run.
  assert (Hmet : metAfter (templateListed pageWithoutLabels "Generic Rest API")
                   0 freshScreen).
  { split; [|reflexivity]. intros j Hj. lia. }
  split; [exact Hmet|].
  subst run.
  rewrite (selectTemplate_no_option_label linuxAgent pageWithoutLabels
             "Generic Rest API" "Create a project" 0 (mkScreen 2 [])
             freshScreen ltac:(lia) Hmet eq_refl).
  repeat split.
Defined.

Lemma selectTemplate_clicks_once_described_witness :
  let page := scriptedPage 1 "Generic Rest APICreate a project" in
  let run := selectTemplate linuxAgent page "Generic Rest API"
               "Create a project" freshScreen in
  fst run = Normal tt
  /\ ui (snd run) = mkScreen 3 ["click"]
  /\ shot (snd run) = newScreenshot.
Proof.
  intros page run.
  assert (Hmet1 : metAfter (templateListed page "Generic Rest API") 1
                    freshScreen).
  { split; [|reflexivity].
    intros j Hj. destruct j as [|j]; [reflexivity | lia]. }
  assert (Hmet2 :
            metAfter (templateDescribed page "Generic Rest API"
                        "Create a project") 0
              (polledWorld (templateListed page "Generic Rest API") 2 2
                 freshScreen)).
  { split; [|reflexivity]. intros j Hj. lia. }
  destruct (selectTemplate_clicks_once_described linuxAgent page
              "Generic Rest API" "Create a project" 1 0 freshScreen
              ltac:(lia) ltac:(lia) Hmet1 Hmet2) as (Hrun & _).
  subst run. rewrite Hrun. repeat split.
Defined.

Lemma selectEmitters_toggles_all_witness :
  let page := scriptedPage 0 "" in
  let run := selectEmitters linuxAgent page (Some ["@typespec/openapi3"])
               freshScreen in
  metAfter (emittersShown page) 0 freshScreen
  /\ fst run = Normal tt
  /\ acts (ui (snd run)) = ["check"; "Enter"]
  /\ map fullPath (fileList (shot (snd run)))
     = ["/artifacts/images-linux/CreateTypeSpecProject/select_emitter.png"].
Proof.
  intros page run.
  assert (Hmet : metAfter (emittersShown page) 0 freshScreen).
  { split; [|reflexivity]. intros j Hj. lia. }
  split; [exact Hmet|].
  destruct (selectEmitters_toggles_all linuxAgent page
              (Some ["@typespec/openapi3"]) 0 freshScreen ltac:(lia) Hmet)
    as (Hrun & _).
  subst run. rewrite (Hrun eq_refl). repeat split.
Defined.

Lemma startWithClick_two_captures_witness :
  let page := scriptedPage 0 "" in
  let run := startWithClick linuxAgent page freshScreen in
  fst run = Normal tt
  /\ acts (ui (snd run)) = ["click"; "click"]
  /\ map fullPath (fileList (shot (snd run)))
     = ["/artifacts/images-linux/CreateTypeSpecProject/start_with_click.png";
        "/artifacts/images-linux/CreateTypeSpecProject/open_tabs.png"].
Proof.
  intros page run.
  destruct (startWithClick_two_captures linuxAgent page freshScreen)
    as (Hrun & _).
  destruct (Hrun eq_refl) as (Hrun' & _).
  subst run. rewrite Hrun'. repeat split.
Defined.

(* ===================================================================== *)
(** * The files of a flush *)
(* ===================================================================== *)

Section FileNameFacts.
Implicit Types a b d s : string.

Lemma lastIndexOf_none_app (x : ascii) a b :
  Js.lastIndexOf x a = -1 -> Js.lastIndexOf x b = -1 ->
  Js.lastIndexOf x (a ++ b) = -1.
Proof.
  intros Ha Hb. induction a as [|y a IH]; [exact Hb|].
  cbn [append Js.lastIndexOf] in *.
  destruct (Z.leb_spec 0 (Js.lastIndexOf x a)) as [Hge|Hlt].
  - pose proof (lastIndexOf_lower x a). lia.
  - destruct (Ascii.eqb y x); [discriminate|].
    pose proof (lastIndexOf_lower x a).
    rewrite IH by lia. reflexivity.
Qed.

Lemma lastIndexOf_none_inv (x y : ascii) s :
  Js.lastIndexOf x (String y s) = -1 ->
  Ascii.eqb y x = false /\ Js.lastIndexOf x s = -1.
Proof.
  cbn [Js.lastIndexOf]. intros H.
  pose proof (lastIndexOf_lower x s).
  destruct (Z.leb_spec 0 (Js.lastIndexOf x s)); [lia|].
  destruct (Ascii.eqb y x); [discriminate|]. split; [reflexivity | lia].
Qed.

Lemma substring1_zero s : Js.substring1 s 0 = s.
Proof.
  unfold Js.substring1, Js.substring2, Js.clamp.
  change (Z.to_nat 0) with 0%nat.
  rewrite Nat2Z.id, Nat.min_id, Nat.min_0_l. simpl Nat.min.
  rewrite Nat.max_0_l, Nat.sub_0_r. apply substring_whole.
Qed.

Lemma fileNameOf_name s name : endsInName s name -> fileNameOf s = name.
Proof.
  intros [Hn [->|[d ->]]]; unfold fileNameOf.
  - rewrite Hn. apply substring1_zero.
  - rewrite (lastIndexOf_app "/" d name Hn). apply substring1_base.
Qed.

Lemma endsInName_under a s name :
  endsInName s name -> endsInName (a ++ String "/" s) name.
Proof.
  intros [Hn [->|[d ->]]]; split; try assumption; right.
  - now exists a.
  - exists (a ++ String "/" d). now rewrite string_app_assoc.
Qed.

Lemma endsInName_after_slash s name :
  endsInName s name -> endsInName (String "/" s) name.
Proof. apply (endsInName_under ""). Qed.

Lemma lastIndexOf_decomp s :
  0 <= Js.lastIndexOf "/" s ->
  exists d b,
    s = d ++ String "/" b
    /\ Js.lastIndexOf "/" b = -1
    /\ Js.lastIndexOf "/" s = Z.of_nat (String.length d).
Proof.
  induction s as [|y s IH]; cbn [Js.lastIndexOf]; [lia|].
  pose proof (lastIndexOf_lower "/" s) as Hlo.
  destruct (Z.leb_spec 0 (Js.lastIndexOf "/" s)) as [Hge|Hlt]; intros Hk.
  - destruct (IH Hge) as (d & b & -> & Hb & Hlen).
    exists (String y d), b. repeat split; [assumption|].
    rewrite Hlen. cbn [String.length]. lia.
  - destruct (Ascii.eqb_spec y "/") as [->|]; [|lia].
    exists "", s. repeat split. lia.
Qed.

Lemma segments_not_nil (isSep : ascii -> bool) s :
  NodePath.segments isSep s <> [].
Proof.
  destruct s as [|y s]; simpl; [discriminate|].
  destruct (isSep y); [discriminate|].
  destruct (NodePath.segments isSep s); discriminate.
Qed.

Lemma segments_name s :
  Js.lastIndexOf "/" s = -1 ->
  NodePath.segments NodePath.isPosixPathSeparator s = [s].
Proof.
  induction s as [|y s IH]; intros H; [reflexivity|].
  apply lastIndexOf_none_inv in H. destruct H as [Hy Hs].
  cbn [NodePath.segments]. unfold NodePath.isPosixPathSeparator at 1.
  rewrite Hy, (IH Hs). reflexivity.
Qed.

Lemma segments_app_slash a b :
  NodePath.segments NodePath.isPosixPathSeparator (a ++ String "/" b)
  = (NodePath.segments NodePath.isPosixPathSeparator a
     ++ NodePath.segments NodePath.isPosixPathSeparator b)%list.
Proof.
  induction a as [|y a IH]; [reflexivity|].
  cbn [append NodePath.segments].
  destruct (NodePath.isPosixPathSeparator y).
  - now rewrite IH.
  - rewrite IH.
    pose proof (segments_not_nil NodePath.isPosixPathSeparator a) as Hne.
    destruct (NodePath.segments NodePath.isPosixPathSeparator a);
      [contradiction | reflexivity].
Qed.

Lemma segments_endsInName s name :
  endsInName s name ->
  exists segs,
    NodePath.segments NodePath.isPosixPathSeparator s = (segs ++ [name])%list.
Proof.
  intros [Hn [->|[d ->]]].
  - exists []. now apply segments_name.
  - exists (NodePath.segments NodePath.isPosixPathSeparator d).
    now rewrite segments_app_slash, (segments_name name Hn).
Qed.

Lemma concat_last (sep : string) (l : list string) (x : string) :
  String.concat sep (l ++ [x])
  = match l with
    | [] => x
    | _ => String.concat sep l ++ sep ++ x
    end.
Proof.
  induction l as [|y l IH]; [reflexivity|].
  destruct l as [|z l]; [reflexivity|].
  change (String.concat sep ((y :: z :: l) ++ [x]))
    with (y ++ sep ++ String.concat sep ((z :: l) ++ [x])).
  rewrite IH.
  change (String.concat sep (y :: z :: l))
    with (y ++ sep ++ String.concat sep (z :: l)).
  now rewrite !string_app_assoc.
Qed.

Lemma concat_slash_endsInName (l : list string) s name :
  endsInName s name -> endsInName (String.concat "/" (l ++ [s])) name.
Proof.
  intros H. rewrite concat_last. destruct l as [|y l]; [exact H|].
  now apply (endsInName_under (String.concat "/" (y :: l))).
Qed.

(** A segment that does not begin with a dot is kept by
    [normalizeString]. *)
Lemma normalizeStep_name (allowAboveRoot : bool) (res : list string)
    (name : string) (c : ascii) :
  NodePath.firstChar name = Some c -> c <> "."%char ->
  NodePath.normalizeStep allowAboveRoot res name = name :: res.
Proof.
  intros Hc Hdot. destruct name as [|x name]; [discriminate|].
  injection Hc as ->. unfold NodePath.normalizeStep.
  cbn [String.eqb orb].
  destruct (Ascii.eqb_spec c "."); [contradiction|]. reflexivity.
Qed.

Lemma normalizeString_endsInName s name (allowAboveRoot : bool) (c : ascii) :
  NodePath.firstChar name = Some c -> c <> "."%char ->
  endsInName s name ->
  endsInName
    (NodePath.normalizeString s allowAboveRoot "/"
       NodePath.isPosixPathSeparator) name.
Proof.
  intros Hc Hdot Hs. unfold NodePath.normalizeString.
  destruct (segments_endsInName s name Hs) as [segs ->].
  rewrite fold_left_app. cbn [fold_left].
  rewrite (normalizeStep_name _ _ name c Hc Hdot). cbn [rev].
  apply concat_slash_endsInName. split; [apply Hs | now left].
Qed.

Lemma endsInName_nonEmpty s name (c : ascii) :
  NodePath.firstChar name = Some c -> endsInName s name ->
  Js.nonEmpty s = true.
Proof.
  intros Hc [_ [->|[d ->]]].
  - destruct name; [discriminate | reflexivity].
  - destruct d; reflexivity.
Qed.

Lemma lastChar_no_slash name :
  Js.lastIndexOf "/" name = -1 ->
  NodePath.charIs NodePath.isPosixPathSeparator (NodePath.lastChar name)
  = false.
Proof.
  induction name as [|y name IH]; intros H; [reflexivity|].
  apply lastIndexOf_none_inv in H. destruct H as [Hy Hn].
  destruct name as [|z name]; [exact Hy | exact (IH Hn)].
Qed.

Lemma endsInName_lastChar s name (c : ascii) :
  NodePath.firstChar name = Some c -> endsInName s name ->
  NodePath.charIs NodePath.isPosixPathSeparator (NodePath.lastChar s) = false.
Proof.
  intros Hc [Hn Hs].
  assert (Hne : Js.nonEmpty name = true)
    by (destruct name; [discriminate | reflexivity]).
  destruct Hs as [->|[d ->]]; [now apply lastChar_no_slash|].
  change (d ++ String "/" name) with (d ++ ("/" ++ name)).
  rewrite <- string_app_assoc, lastChar_app by assumption.
  now apply lastChar_no_slash.
Qed.

Lemma posix_normalize_endsInName s name (c : ascii) :
  NodePath.firstChar name = Some c -> c <> "."%char ->
  endsInName s name -> endsInName (NodePath.posix_normalize s) name.
Proof.
  intros Hc Hdot Hs. unfold NodePath.posix_normalize.
  pose proof (endsInName_nonEmpty s name c Hc Hs) as Hne.
  destruct s as [|y s]; [discriminate|]. cbn [String.eqb].
  set (path := String y s) in *.
  rewrite (endsInName_lastChar path name c Hc Hs).
  pose proof (normalizeString_endsInName path name
                (negb (NodePath.charIs NodePath.isPosixPathSeparator
                         (NodePath.firstChar path))) c Hc Hdot Hs) as Hp.
  pose proof (endsInName_nonEmpty _ name c Hc Hp) as Hpne.
  destruct (NodePath.normalizeString path _ "/" NodePath.isPosixPathSeparator)
    as [|z q] eqn:E; [discriminate|].
  cbn [String.eqb].
  destruct (NodePath.charIs NodePath.isPosixPathSeparator
              (NodePath.firstChar path)); [|exact Hp].
  now apply endsInName_after_slash.
Qed.

Lemma setLastItem_last (l : list string) (v : string) :
  l <> [] -> Js.setLastItem l v = (removelast l ++ [v])%list.
Proof.
  induction l as [|x l IH]; intros H; [contradiction|].
  destruct l as [|y l]; [reflexivity|].
  change (Js.setLastItem (x :: y :: l) v)
    with (x :: Js.setLastItem (y :: l) v).
  rewrite IH by discriminate. reflexivity.
Qed.

Lemma posix_join_endsInName (l : list string) s name (c : ascii) :
  NodePath.firstChar name = Some c -> c <> "."%char ->
  endsInName s name -> endsInName (NodePath.posix_join (l ++ [s])) name.
Proof.
  intros Hc Hdot Hs. unfold NodePath.posix_join.
  rewrite filter_app. cbn [filter].
  rewrite (endsInName_nonEmpty s name c Hc Hs).
  destruct (filter Js.nonEmpty l ++ [s])%list eqn:E.
  - destruct (filter Js.nonEmpty l); discriminate.
  - rewrite <- E. apply (posix_normalize_endsInName _ name c Hc Hdot).
    now apply concat_slash_endsInName.
Qed.
End FileNameFacts.

Section OrdinalFacts.

Lemma uint_string_no_slash (d : Decimal.uint) :
  Js.lastIndexOf "/" (NilEmpty.string_of_uint d) = -1.
Proof.
  induction d; cbn [NilEmpty.string_of_uint Js.lastIndexOf];
    try rewrite IHd; reflexivity.
Qed.

Lemma uint_string_first (d : Decimal.uint) (rest : string) :
  exists c, NodePath.firstChar (NilEmpty.string_of_uint d ++ "_" ++ rest)
            = Some c
            /\ c <> "."%char.
Proof.
  destruct d; cbn [NilEmpty.string_of_uint append NodePath.firstChar];
    eexists; (split; [reflexivity | discriminate]).
Qed.

(** The digits in front of the first ['_'] tell the ordinal. *)
Lemma uint_string_inj (d : Decimal.uint) : forall d' r r',
  NilEmpty.string_of_uint d ++ "_" ++ r
  = NilEmpty.string_of_uint d' ++ "_" ++ r' ->
  d = d'.
Proof.
  induction d; intros d' r r' H; destruct d';
    cbn [NilEmpty.string_of_uint append] in H;
    try discriminate H; try reflexivity;
    injection H as H; f_equal; eapply IHd; exact H.
Qed.

Lemma string_of_index_inj (i j : nat) (r r' : string) :
  Js.string_of_index i ++ "_" ++ r = Js.string_of_index j ++ "_" ++ r' ->
  i = j.
Proof.
  unfold Js.string_of_index. intros H.
  apply uint_string_inj in H. now apply DecimalNat.Unsigned.to_uint_inj.
Qed.
End OrdinalFacts.

Section FlushFiles.
Context {U : Type} (env : Env).
Hypothesis Hposix : isWin32 (platform env) = false.

(** The last of the pieces that [save] joins ends with the ordinal, ['_']
    and the file name of the frame's path. *)
Lemma prefixedItems_posix (i : nat) (p : string) :
  exists L,
    prefixedItems env i p = (removelast (Js.split "\" p) ++ [L])%list
    /\ endsInName L
         (Js.string_of_index i ++ "_"
            ++ fileNameOf (Js.lastItem (Js.split "\" p))).
Proof.
  unfold prefixedItems. rewrite Hposix.
  pose proof (split_not_nil "\" p) as Hne.
  set (items := Js.split "\" p) in *.
  set (fileName := Js.lastItem items).
  pose proof (lastIndexOf_lower "/" fileName) as Hlo.
  destruct (Z.eqb_spec (Js.lastIndexOf "/" fileName) (-1)) as [E|E];
    cbn [negb].
  - eexists. split; [apply setLastItem_last; assumption|].
    unfold fileNameOf. rewrite E. change (-1 + 1) with 0.
    rewrite substring1_zero. split; [|now left].
    apply lastIndexOf_none_app; [apply uint_string_no_slash|].
    change ("_" ++ fileName) with (String "_" fileName).
    cbn [Js.lastIndexOf]. rewrite E. reflexivity.
  - destruct (lastIndexOf_decomp fileName ltac:(lia)) as (d & b & Ed & Hb & Hk).
    eexists. split; [apply setLastItem_last; assumption|].
    unfold fileNameOf. rewrite Hk, Ed, substring2_dir, substring1_base.
    split.
    + apply lastIndexOf_none_app; [apply uint_string_no_slash|].
      change ("_" ++ b) with (String "_" b).
      cbn [Js.lastIndexOf]. rewrite Hb. reflexivity.
    + right. exists d. now rewrite string_app_assoc.
Qed.

(** X14. On a platform other than Windows, the file written for the frame
    of ordinal [i] is named by the ordinal, ['_'] and the file name of the
    frame's own path, whatever directories the path goes through and
    however [path.join] normalises them. *)
Theorem written_file_name (i : nat) (p : string) :
  fileNameOf (prefixedPath env i p)
  = Js.string_of_index i ++ "_"
      ++ fileNameOf (Js.lastItem (Js.split "\" p)).
Proof.
  destruct (prefixedItems_posix i p) as (L & Eitems & HL).
  destruct (uint_string_first (Nat.to_uint i)
              (fileNameOf (Js.lastItem (Js.split "\" p))))
    as (c & Hc & Hdot).
  apply fileNameOf_name.
  unfold prefixedPath, path_join. rewrite Hposix, Eitems.
  exact (posix_join_endsInName _ L _ c Hc Hdot HL).
Qed.

Lemma prefixedPath_ordinal_inj (i j : nat) (p q : string) :
  prefixedPath env i p = prefixedPath env j q -> i = j.
Proof.
  intros H. apply (f_equal fileNameOf) in H.
  rewrite !written_file_name in H.
  exact (string_of_index_inj i j _ _ H).
Qed.

Lemma writtenPaths_saveEvents (items : list Frame) : forall k path,
  In path (writtenPaths (saveEvents env k items)) ->
  exists j f, (k <= j)%nat /\ path = prefixedPath env j (fullPath f).
Proof.
  induction items as [|f rest IH]; intros k path Hin; [contradiction|].
  cbn [saveEvents writtenPaths] in Hin. destruct Hin as [<-|Hin].
  - exists k, f. split; [lia | reflexivity].
  - destruct (IH (S k) path Hin) as (j & g & Hj & ->).
    exists j, g. split; [lia | reflexivity].
Qed.

Lemma writtenPaths_saveEvents_NoDup (items : list Frame) : forall k,
  NoDup (writtenPaths (saveEvents env k items)).
Proof.
  induction items as [|f rest IH]; intros k; [constructor|].
  cbn [saveEvents writtenPaths]. constructor; [|apply IH].
  intros Hin. apply writtenPaths_saveEvents in Hin.
  destruct Hin as (j & g & Hj & E).
  apply prefixedPath_ordinal_inj in E. lia.
Qed.

Lemma writtenPaths_app (a b : list Event) :
  writtenPaths (a ++ b) = (writtenPaths a ++ writtenPaths b)%list.
Proof.
  induction a as [|e a IH]; [reflexivity|].
  destruct e; simpl; rewrite IH; reflexivity.
Qed.

(** X15. On a platform other than Windows, one flush never writes two
    frames to the same path, whatever the buffer holds: frames captured
    under the same file name end up in different files, and the flush
    writes as many files as the buffer has frames. *)
Theorem save_writes_distinct_files (w : World U) :
  exists paths,
    writtenPaths (trace (snd (save env w)))
    = (writtenPaths (trace w) ++ paths)%list
    /\ NoDup paths
    /\ List.length paths = List.length (fileList (shot w)).
Proof.
  exists (writtenPaths
            (saveEvents env 0 (Js.sort byDate (fileList (shot w))))).
  rewrite save_run. unfold saved. cbn [snd trace].
  split; [apply writtenPaths_app|].
  split; [apply writtenPaths_saveEvents_NoDup|].
  rewrite <- (Permutation_length (byDate_Permutation (fileList (shot w)))).
  generalize (Js.sort byDate (fileList (shot w))) 0%nat.
  induction l as [|f l IH]; intros k; [reflexivity|].
  cbn [saveEvents writtenPaths List.length]. now rewrite IH.
Qed.
End FlushFiles.

Lemma written_file_name_witness :
  isWin32 (platform linuxAgent) = false
  /\ fileNameOf (prefixedPath linuxAgent 12 "/artifacts/x/../case/shot.png")
     = "12_shot.png"
  /\ prefixedPath linuxAgent 12 "/artifacts/x/../case/shot.png"
     = "/artifacts/case/12_shot.png".
Proof.
  assert (H : isWin32 (platform linuxAgent) = false) by reflexivity.
  split; [exact H|]. split; [|reflexivity].
  exact (written_file_name linuxAgent H 12 "/artifacts/x/../case/shot.png").
Defined.

Lemma save_writes_distinct_files_witness :
  isWin32 (platform linuxAgent) = false
  /\ map fullPath (fileList (shot (sameNameTwice linuxAgent)))
     = ["/artifacts/images-linux/CreateTypeSpecProject/case_00_00_00/same.png";
        "/artifacts/images-linux/CreateTypeSpecProject/case_00_00_00/same.png"]
  /\ exists paths,
       writtenPaths (trace (snd (save linuxAgent (sameNameTwice linuxAgent))))
       = (writtenPaths (trace (sameNameTwice linuxAgent)) ++ paths)%list
       /\ NoDup paths
       /\ List.length paths = 2%nat.
Proof.
  assert (H : isWin32 (platform linuxAgent) = false) by reflexivity.
  split; [exact H|]. split; [reflexivity|].
  exact (save_writes_distinct_files linuxAgent H (sameNameTwice linuxAgent)).
Defined.

(* ===================================================================== *)
(** * Categories and case directories *)
(* ===================================================================== *)

Section CategoryTheorems.
Context {U : Type} (env : Env).
Implicit Types w : World U.

Lemma string_app_inv_head (a x y : string) : a ++ x = a ++ y -> x = y.
Proof.
  induction a as [|c a IH]; intros H; [exact H|].
  injection H as H. exact (IH H).
Qed.

(** X16. [getDir] tells the category and the case directory apart: two
    states of the singleton give the same [getDir] only when they have
    the same category and the same case directory, because no category
    folder is the beginning of another. *)
Theorem getDir_inj (w1 w2 : World U) :
  fst (getDir w1) = fst (getDir w2) ->
  createType (shot w1) = createType (shot w2)
  /\ currentDir (shot w1) = currentDir (shot w2).
Proof.
  unfold getDir, bind, getShot, ret. cbn [fst].
  intros H. injection H as H.
  destruct (createType (shot w1)), (createType (shot w2));
    try (cbn [typeMenu append] in H; discriminate H);
    (split; [reflexivity|]);
    apply string_app_inv_head in H;
    injection H as H; exact H.
Qed.

(** X17. [setCreateType] changes the category and nothing else: the case
    directory and the buffer stay, so the frames already captured are
    flushed to the paths they were captured for, under the old category,
    while [getDir] and the captures that follow use the new one. *)
Theorem setCreateType_keeps_captured_paths (t : CreateType) w :
  let w' := snd (setCreateType t w) in
  fst (setCreateType t w) = Normal tt
  /\ fileList (shot w') = fileList (shot w)
  /\ currentDir (shot w') = currentDir (shot w)
  /\ trace w' = trace w
  /\ trace (snd (save env w'))
     = (trace w ++ saveEvents env 0 (Js.sort byDate (fileList (shot w))))%list
  /\ fst (getDir w') = Normal (typeMenu t ++ "/" ++ currentDir (shot w))
  /\ (forall fileName,
        fullPath (capturedFrame env fileName w')
        = path_join env [rootDir env; platformDir env; typeMenu t;
                         currentDir (shot w); fileName]).
Proof.
  intros w'. subst w'. rewrite save_run. repeat split.
Qed.
End CategoryTheorems.

Lemma getDir_inj_witness :
  fst (getDir (snd (setCreateType emit freshWorld)))
  <> fst (getDir (snd (setCreateType import freshWorld))).
Proof.
  intros H.
  destruct (getDir_inj _ _ H) as [Htype _]. discriminate Htype.
Defined.

(* ===================================================================== *)
(** * The test around its steps *)
(* ===================================================================== *)

Section TestTheorems.
Context {U : Type} (env : Env) (steps : CommonSteps U) (driver : Driver U).
Context (testDirname : string).
Implicit Types w : World U.

(** X18. When the host does not start, the test fails with the driver's
    error before any step: the page is not touched, no screenshot is
    captured, and the final flush, over the buffer that [setDir] emptied,
    writes nothing. *)
Theorem createCase_host_does_not_start (logPath : string)
    (item : CreateCase) (e : string) w :
  launchError env (S (S (tick w))) = Some e ->
  let run := runCreateCase env steps driver testDirname logPath item w in
  fst run = Throw e
  /\ ui (snd run) = ui w
  /\ shot (snd run)
     = {| createType := createType (shot w);
          currentDir :=
            caseName item ++ Moment.format_HH_mm_ss (momentAt env w);
          fileList := [] |}
  /\ writtenPaths (trace (snd run)) = writtenPaths (trace w)
  /\ existsb isFirstWindow (trace (snd run))
     = existsb isFirstWindow (trace w).
Proof.
  intros He run. subst run.
  unfold runCreateCase. rewrite launchFixture_is_body.
  unfold createCase, bind at 1.
  unfold setDir, momentNow, bind, nextTick, getShot, putShot, ret.
  cbn [fst snd tick shot ui trace].
  unfold tryFinally, createCaseBody, bind at 1.
  unfold launch, mkdtemp, electronLaunch, bind, nextTick, emitEvent, ret,
    throw.
  cbn [fst snd tick shot ui trace]. rewrite He.
  rewrite save_run. unfold saved. cbn [fst snd tick shot ui trace fileList
                                         Js.sort saveEvents].
  rewrite app_nil_r, !writtenPaths_app, !existsb_app.
  cbn [writtenPaths existsb isFirstWindow]. rewrite !app_nil_r, !orb_false_r.
  repeat split.
Qed.

(** X19. However the body of the test ends, by returning or by throwing
    at any step, the test then flushes: its outcome is the body's, and
    every frame that the buffer holds when the body ends is written. *)
Theorem createCase_flushes_whatever_the_outcome (logPath : string)
    (item : CreateCase) w :
  let body :=
    createCaseBody env steps driver testDirname item (launch env logPath) in
  let w0 := snd (setDir env (caseName item) w) in
  let run := runCreateCase env steps driver testDirname logPath item w in
  fst run = fst (body w0)
  /\ snd run = saved env (snd (body w0))
  /\ (forall f, In f (fileList (shot (snd (body w0)))) ->
      exists i, In (EvWriteFile (prefixedPath env i (fullPath f)) (buffer f))
                   (trace (snd run))).
Proof.
  intros body w0 run.
  assert (Hrun : run = (fst (body w0), saved env (snd (body w0)))).
  { subst run. unfold runCreateCase. rewrite launchFixture_is_body.
    unfold createCase, bind at 1.
    assert (Hset : setDir env (caseName item) w = (Normal tt, w0))
      by reflexivity.
    rewrite Hset. unfold tryFinally. fold body.
    destruct (body w0) as [r w1]. now rewrite save_run. }
  rewrite Hrun. repeat split.
  intros f Hf. unfold saved. cbn [snd trace].
  destruct (saveEvents_writes_all env
              (Js.sort byDate (fileList (shot (snd (body w0))))) f
              (Permutation_in f
                 (Permutation_sym
                    (byDate_Permutation (fileList (shot (snd (body w0))))))
                 Hf) 0%nat) as [i Hi].
  exists i. apply in_or_app. now right.
Qed.
End TestTheorems.

Lemma createCase_host_does_not_start_witness :
  launchError hostDoesNotStart (S (S (tick freshScreen)))
  = Some "electron.launch: Process failed to launch!"
  /\ fst (runCreateCase hostDoesNotStart idleSteps (scriptedPage 0 "")
            "/repo/src/createTypespec" "/repo/tests-logs-t-1.txt"
            genericRestApiCase freshScreen)
     = Throw "electron.launch: Process failed to launch!".
Proof.
  assert (H : launchError hostDoesNotStart (S (S (tick freshScreen)))
              = Some "electron.launch: Process failed to launch!")
    by reflexivity.
  split; [exact H|].
  exact (proj1 (createCase_host_does_not_start hostDoesNotStart idleSteps
                  (scriptedPage 0 "") "/repo/src/createTypespec"
                  "/repo/tests-logs-t-1.txt" genericRestApiCase _
                  freshScreen H)).
Defined.

Section FailedPoll.
Context {U : Type} (env : Env) (steps : CommonSteps U) (driver : Driver U).
Context (testDirname : string).
Implicit Types w : World U.

Lemma saveEvents_length (i : nat) (items : list Frame) :
  List.length (saveEvents env i items) = (2 * List.length items)%nat.
Proof.
  revert i. induction items as [|f rest IH]; intros i; [reflexivity|].
  cbn [saveEvents List.length]. rewrite IH. lia.
Qed.

(** X20. When a polled step of the test gives up (the [try] block ends by
    the throw of [retry], entered in [w'] after the loop), the screenshots
    are written twice: [retry] flushes the buffer, with the error frame,
    and closes the host, and the [finally] block then flushes the same
    buffer again, writing every frame once more to the same path with the
    same ordinal. *)
Theorem createCase_failed_poll_flushes_twice (logPath : string)
    (item : CreateCase) (msg : string) (w' : World U) w :
  let w0 := snd (setDir env (caseName item) w) in
  createCaseBody env steps driver testDirname item (launch env logPath) w0
  = (Throw msg, gaveUp env w') ->
  let run := runCreateCase env steps driver testDirname logPath item w in
  let flush :=
    saveEvents env 0
      (Js.sort byDate
         (fileList (shot w') ++ [capturedFrame env "error.png" w'])) in
  fst run = Throw msg
  /\ trace (snd run)
     = (trace w' ++ [EvSleep 3; EvGrab] ++ flush ++ [EvCloseVscode]
        ++ flush)%list
  /\ List.length flush = (2 * S (List.length (fileList (shot w'))))%nat
  /\ fileList (shot (snd run))
     = Js.sort byDate
         (fileList (shot w') ++ [capturedFrame env "error.png" w']).
Proof.
  intros w0 Hbody run flush.
  assert (Hrun : run = (Throw msg, saved env (gaveUp env w'))).
  { subst run. unfold runCreateCase. rewrite launchFixture_is_body.
    unfold createCase, bind at 1.
    assert (Hset : setDir env (caseName item) w = (Normal tt, w0))
      by reflexivity.
    rewrite Hset. unfold tryFinally. rewrite Hbody. now rewrite save_run. }
  assert (Hshot : fileList (shot (gaveUp env w'))
                  = Js.sort byDate
                      (fileList (shot w')
                       ++ [capturedFrame env "error.png" w']))
    by reflexivity.
  assert (Htrace : trace (gaveUp env w')
                   = (trace w' ++ [EvSleep 3; EvGrab] ++ flush
                      ++ [EvCloseVscode])%list)
    by reflexivity.
  rewrite Hrun. unfold saved. cbn [fst snd trace shot fileList].
  rewrite Hshot, Htrace, byDate_idempotent. fold flush. repeat split.
  - now rewrite <- !app_assoc.
  - unfold flush. rewrite saveEvents_length.
    rewrite (Permutation_length
               (byDate_Permutation
                  (fileList (shot w')
                   ++ [capturedFrame env "error.png" w']))).
    rewrite length_app. cbn [List.length]. lia.
Qed.
End FailedPoll.

Lemma createCase_failed_poll_flushes_twice_witness :
  let page := scriptedPage 9 "Generic Rest APICreate a project" in
  let launched :=
    launch linuxAgent "/repo/tests-logs-t-1.txt"
      {| extensionPath := None; workspacePath := "test"; trace' := None |} in
  let w0 := snd (setDir linuxAgent (caseName genericRestApiCase) freshScreen) in
  let w' :=
    polledWorld (templateListed page "Generic Rest API") 2 3
      (snd ((launched ;; startWithClick linuxAgent page)%harness w0)) in
  createCaseBody linuxAgent idleSteps page "/repo/src/createTypespec"
    genericRestApiCase (launch linuxAgent "/repo/tests-logs-t-1.txt") w0
  = (Throw (templateNotFound "Generic Rest API"), gaveUp linuxAgent w')
  /\ map fileNameOf
       (writtenPaths
          (trace (snd (runCreateCase linuxAgent idleSteps page
                         "/repo/src/createTypespec" "/repo/tests-logs-t-1.txt"
                         genericRestApiCase freshScreen))))
     = ["0_start_with_click.png"; "1_open_tabs.png"; "2_error.png";
        "0_start_with_click.png"; "1_open_tabs.png"; "2_error.png"].
Proof.
  intros page launched w0 w'.
  assert (Hbody :
            createCaseBody linuxAgent idleSteps page "/repo/src/createTypespec"
              genericRestApiCase (launch linuxAgent "/repo/tests-logs-t-1.txt")
              w0
            = (Throw (templateNotFound "Generic Rest API"),
               gaveUp linuxAgent w'))
    by (vm_compute; reflexivity).
  split; [exact Hbody|].
  destruct (createCase_failed_poll_flushes_twice linuxAgent idleSteps page
              "/repo/src/createTypespec" "/repo/tests-logs-t-1.txt"
              genericRestApiCase _ w' freshScreen Hbody)
    as (_ & Htrace & _).
  rewrite Htrace. vm_compute. reflexivity.
Defined.
